(** * ImprovementEmitter (ribs/emitters/_improvement_emitter.py)

    A shallow embedding of the emitter's constructor, [ask] and [tell], and
    the properties of its ranking, parent selection and restart policy.

    The emitter talks to three collaborators that live outside the file:
    numpy (arrays and the random generator), the archive and the CMA-ES
    optimizer.  They are interfaces here ([Numpy], [ArchiveBase],
    [Optimizer]); every call the emitter makes to the archive or to the
    optimizer is appended, with its arguments and its result, to a trace, so
    that "what is passed to Optimizer.tell" is a statement about the trace. *)

From Stdlib Require Import String ZArith List Bool Lia Permutation Sorted.
Import ListNotations.
Local Open Scope string_scope.
Local Open Scope list_scope.
Local Open Scope Z_scope.

Set Implicit Arguments.

(** ** AddStatus *)

(** Modelled from the spec: the enumeration [ribs.archives.AddStatus] is
    imported by the source but declared elsewhere.  It is the closed set
    {NEW, IMPROVE_EXISTING, NOT_ADDED}, an integer enumeration whose values
    make the reversed sort of [tell] put NEW first and NOT_ADDED last (the
    source comment above [ranking_data.sort]). *)
Inductive AddStatus : Type :=
| NOT_ADDED
| IMPROVE_EXISTING
| NEW.

Definition AddStatus_int (s : AddStatus) : Z :=
  match s with
  | NOT_ADDED => 0
  | IMPROVE_EXISTING => 1
  | NEW => 2
  end.

Definition AddStatus_eqb (a b : AddStatus) : bool :=
  AddStatus_int a =? AddStatus_int b.

(** [status in (AddStatus.NEW, AddStatus.IMPROVE_EXISTING)] *)
Definition status_added (s : AddStatus) : bool :=
  AddStatus_eqb s NEW || AddStatus_eqb s IMPROVE_EXISTING.

(** ** Ranking records and Python's tuple order *)

(** The tuple [(status, value, i)] appended to [ranking_data].  Improvement
    values are the scalars returned by the archive; only their order is
    used, and they are integers here. *)
Definition RankingRecord : Type := AddStatus * Z * nat.

Definition rr_status (d : RankingRecord) : AddStatus := fst (fst d).
Definition rr_value (d : RankingRecord) : Z := snd (fst d).
Definition rr_index (d : RankingRecord) : nat := snd d.

(** Python's [a < b] on two 3-tuples: the first position where the tuples
    differ decides. *)
Definition tuple_ltb (a b : RankingRecord) : bool :=
  if negb (AddStatus_eqb (rr_status a) (rr_status b))
  then AddStatus_int (rr_status a) <? AddStatus_int (rr_status b)
  else if negb (rr_value a =? rr_value b)
  then rr_value a <? rr_value b
  else Nat.ltb (rr_index a) (rr_index b).

(** The same order as a proposition: lexicographic on the three
    components. *)
Definition tuple_lt (a b : RankingRecord) : Prop :=
  AddStatus_int (rr_status a) < AddStatus_int (rr_status b) \/
  (AddStatus_int (rr_status a) = AddStatus_int (rr_status b) /\
   (rr_value a < rr_value b \/
    (rr_value a = rr_value b /\ (rr_index a < rr_index b)%nat))).

(** [a] is not above [b]. *)
Definition tuple_le (a b : RankingRecord) : Prop := ~ tuple_lt b a.

(** [list.sort]: a stable sort that only uses [<].  An element is placed
    after every element it is not smaller than. *)
Fixpoint insort (x : RankingRecord) (l : list RankingRecord) : list RankingRecord :=
  match l with
  | [] => [x]
  | y :: l' => if tuple_ltb x y then x :: y :: l' else y :: insort x l'
  end.

Definition list_sort (l : list RankingRecord) : list RankingRecord :=
  fold_left (fun acc x => insort x acc) l [].

(** [list.sort(reverse=True)]: the list is reversed, sorted, and reversed
    again, which keeps the sort stable. *)
Definition sort_reverse (l : list RankingRecord) : list RankingRecord :=
  rev (list_sort (rev l)).

(** ** Iterables and [zip] *)

(** The fourth argument of [zip] is either the caller's sequence or
    [itertools.repeat(None)], which never ends. *)
Inductive iterable (A : Type) : Type :=
| finite (l : list A)
| itertools_repeat (x : A).

Arguments itertools_repeat {A} x.

Fixpoint zip4 {A B C D : Type} (s : list A) (o : list B) (b : list C)
  (m : iterable D) : list (A * B * C * D) :=
  match s, o, b with
  | x :: s', y :: o', z :: b' =>
      match m with
      | finite [] => []
      | finite (w :: m') => (x, y, z, w) :: zip4 s' o' b' (finite m')
      | itertools_repeat w => (x, y, z, w) :: zip4 s' o' b' m
      end
  | _, _, _ => []
  end.

Fixpoint enumerate_from {A : Type} (i : nat) (l : list A) : list (nat * A) :=
  match l with
  | [] => []
  | x :: l' => (i, x) :: enumerate_from (S i) l'
  end.

Definition enumerate {A : Type} (l : list A) : list (nat * A) :=
  enumerate_from 0 l.

(** ** Exceptions *)

Inductive exn (OptExn : Type) : Type :=
| ValueError (msg : string)        (* raised by the emitter itself *)
| IndexError                       (* an index of [solutions[indices]] out of range *)
| OptimizerRaised (e : OptExn).    (* raised inside CMAEvolutionStrategy(...) *)

Arguments ValueError {OptExn} msg.
Arguments IndexError {OptExn}.

(** [solutions[indices]] with a list of indices: one row per index. *)
Fixpoint getitem {A E : Type} (err : E) (l : list A) (indices : list nat)
  : E + list A :=
  match indices with
  | [] => inr []
  | i :: rest =>
      match nth_error l i with
      | None => inl err
      | Some x =>
          match getitem err l rest with
          | inl e => inl e
          | inr xs => inr (x :: xs)
          end
      end
  end.

(** ** Collaborators *)

(** numpy: arrays, and the random generator.  [default_rng(seed)] seeds the
    generator from [seed] when it is an integer and from the operating
    system's entropy when it is [None]; that entropy is an explicit input
    of the model. *)
Class Numpy : Type := {
  Sol : Type;       (* a solution vector *)
  Obj : Type;       (* an objective value *)
  Beh : Type;       (* a behavior vector *)
  Meta : Type;      (* a metadata object *)
  Jac : Type;       (* a jacobian, ignored *)
  Dtype : Type;
  Bounds : Type;    (* the [bounds] argument *)
  BoundArr : Type;  (* the arrays lower_bounds / upper_bounds *)
  Sigma : Type;     (* a step size *)
  Rng : Type;       (* the state of a numpy Generator *)
  Entropy : Type;   (* what the operating system hands to an unseeded generator *)
  np_array : Sol -> Dtype -> Sol;
  np_len : Sol -> Z;
  rng_of_seed : Z -> Rng;
  rng_of_entropy : Entropy -> Rng;
  rng_integers : Rng -> Z -> Z * Rng
}.

Definition default_rng `{Numpy} (seed : option Z) (os : Entropy) : Rng :=
  match seed with
  | Some s => rng_of_seed s
  | None => rng_of_entropy os
  end.

(** The archive: [add] returns (status, value, entry) and
    [get_random_elite] returns a tuple whose first component is a
    solution; both may change the archive. *)
Class ArchiveBase `{Numpy} : Type := {
  Archive : Type;
  EntryId : Type;
  EliteRest : Type;
  archive_dtype : Archive -> Dtype;
  archive_add : Archive -> Sol -> Obj -> Beh -> option Meta
                -> (AddStatus * Z * EntryId) * Archive;
  archive_get_random_elite : Archive -> (Sol * EliteRest) * Archive
}.

(** Modelled from the spec: [ribs.emitters.opt.CMAEvolutionStrategy] is
    declared elsewhere.  Its constructor validates [weight_rule] and may
    raise; its generator is seeded from the seed it is given, by
    [default_rng(opt_seed)], which is the [Rng] argument here. *)
Class Optimizer `{Numpy} : Type := {
  Opt : Type;
  OptExn : Type;
  CMAEvolutionStrategy : Sigma -> option Z -> Z -> string -> Rng -> Dtype
                         -> OptExn + Opt;
  opt_batch_size : Opt -> Z;
  opt_reset : Opt -> Sol -> Opt;
  opt_ask : Opt -> BoundArr -> BoundArr -> list Sol * Opt;
  opt_tell : Opt -> list Sol -> option Z -> Opt;
  opt_check_stop : Opt -> list Z -> bool
}.

(** Modelled from the spec: [EmitterBase.__init__] is declared elsewhere;
    it keeps the archive reference and the solution dimension and turns
    [bounds] into the two arrays [lower_bounds] and [upper_bounds]. *)
Class EmitterBase `{Numpy} : Type := {
  process_bounds : Bounds -> Z -> BoundArr * BoundArr
}.

(** ** The emitter *)

Section Emitter.

Context `{NP : Numpy} {AR : ArchiveBase} {OP : Optimizer} {EB : EmitterBase}.

Record ImprovementEmitter : Type := {
  _rng : Rng;
  _batch_size : Z;
  _x0 : Sol;
  _sigma0 : Sigma;
  _solution_dim : Z;
  lower_bounds : BoundArr;
  upper_bounds : BoundArr;
  _selection_rule : string;
  _restart_rule : string;
  opt : Opt;
  _num_parents : option Z;
  _restarts : Z
}.

Definition set_opt (self : ImprovementEmitter) (o : Opt) : ImprovementEmitter :=
  {| _rng := _rng self; _batch_size := _batch_size self; _x0 := _x0 self;
     _sigma0 := _sigma0 self; _solution_dim := _solution_dim self;
     lower_bounds := lower_bounds self; upper_bounds := upper_bounds self;
     _selection_rule := _selection_rule self;
     _restart_rule := _restart_rule self;
     opt := o;
     _num_parents := _num_parents self; _restarts := _restarts self |}.

Definition set_restarts (self : ImprovementEmitter) (r : Z) : ImprovementEmitter :=
  {| _rng := _rng self; _batch_size := _batch_size self; _x0 := _x0 self;
     _sigma0 := _sigma0 self; _solution_dim := _solution_dim self;
     lower_bounds := lower_bounds self; upper_bounds := upper_bounds self;
     _selection_rule := _selection_rule self;
     _restart_rule := _restart_rule self;
     opt := opt self;
     _num_parents := _num_parents self; _restarts := r |}.

(** [x in ["a", "b"]] on strings. *)
Definition str_in (x : string) (l : list string) : bool :=
  existsb (String.eqb x) l.

(** [__init__].  [os] is the entropy the operating system would give to the
    emitter's generator and to the optimizer's generator if they were built
    without a seed. *)
Definition __init__ (archive : Archive) (x0 : Sol) (sigma0 : Sigma)
  (selection_rule restart_rule weight_rule : string) (bounds : Bounds)
  (batch_size : option Z) (seed : option Z) (os : Entropy * Entropy)
  : exn OptExn + ImprovementEmitter :=
  let rng := default_rng seed (fst os) in
  let x0' := np_array x0 (archive_dtype archive) in
  let solution_dim := np_len x0' in
  let '(lower, upper) := process_bounds bounds solution_dim in
  if negb (str_in selection_rule ["mu"; "filter"])
  then inl (ValueError ("Invalid selection_rule " ++ selection_rule)%string)
  else
  if negb (str_in restart_rule ["basic"; "no_improvement"])
  then inl (ValueError ("Invalid restart_rule " ++ restart_rule)%string)
  else
  let '(opt_seed, rng) :=
    match seed with
    | None => (None, rng)
    | Some _ => let '(k, rng') := rng_integers rng 10000 in (Some k, rng')
    end in
  match CMAEvolutionStrategy sigma0 batch_size solution_dim weight_rule
          (default_rng opt_seed (snd os)) (archive_dtype archive) with
  | inl e => inl (OptimizerRaised e)
  | inr o =>
      let o := opt_reset o x0' in
      inr {| _rng := rng;
             _batch_size := opt_batch_size o;
             _x0 := x0';
             _sigma0 := sigma0;
             _solution_dim := solution_dim;
             lower_bounds := lower;
             upper_bounds := upper;
             _selection_rule := selection_rule;
             _restart_rule := restart_rule;
             opt := o;
             _num_parents :=
               (if String.eqb selection_rule "mu"
                then Some (opt_batch_size o / 2) else None);
             _restarts := 0 |}
  end.

(** The read-only properties. *)
Definition x0 (self : ImprovementEmitter) : Sol := _x0 self.
Definition sigma0 (self : ImprovementEmitter) : Sigma := _sigma0 self.
Definition batch_size (self : ImprovementEmitter) : Z := _batch_size self.

(** *** Calls to the collaborators, and the trace *)

Inductive Event : Type :=
| EvAdd (sol : Sol) (obj : Obj) (beh : Beh) (meta : option Meta)
        (status : AddStatus) (value : Z)
| EvOptAsk (batch : list Sol)
| EvOptTell (solutions : list Sol) (num_parents : option Z)
| EvCheckStop (values : list Z) (stop : bool)
| EvGetRandomElite (elite : Sol)
| EvOptReset (x : Sol).

(** The emitter object, the archive it refers to, and the calls made so far. *)
Record State : Type := {
  emitter : ImprovementEmitter;
  archive : Archive;
  trace : list Event
}.

Definition M (A : Type) : Type := State -> exn OptExn + (A * State).

Definition ret {A : Type} (x : A) : M A := fun st => inr (x, st).

Definition bind {A B : Type} (c : M A) (k : A -> M B) : M B :=
  fun st => match c st with
            | inl e => inl e
            | inr (x, st') => k x st'
            end.

Definition raise {A : Type} (e : exn OptExn) : M A := fun _ => inl e.

Definition lift {A : Type} (r : exn OptExn + A) : M A :=
  fun st => match r with inl e => inl e | inr x => inr (x, st) end.

Definition get_self : M ImprovementEmitter := fun st => inr (emitter st, st).

Definition log (st : State) (self : ImprovementEmitter) (a : Archive)
  (ev : Event) : State :=
  {| emitter := self; archive := a; trace := trace st ++ [ev] |}.

(** [self.archive.add(sol, obj, beh, meta)] *)
Definition call_archive_add (sol : Sol) (obj : Obj) (beh : Beh)
  (meta : option Meta) : M (AddStatus * Z * EntryId) :=
  fun st =>
    let '(r, a) := archive_add (archive st) sol obj beh meta in
    inr (r, log st (emitter st) a
                (EvAdd sol obj beh meta (fst (fst r)) (snd (fst r)))).

(** [self.archive.get_random_elite()] *)
Definition call_get_random_elite : M (Sol * EliteRest) :=
  fun st =>
    let '(r, a) := archive_get_random_elite (archive st) in
    inr (r, log st (emitter st) a (EvGetRandomElite (fst r))).

(** [self.opt.ask(lower, upper)] *)
Definition call_opt_ask (lower upper : BoundArr) : M (list Sol) :=
  fun st =>
    let '(batch, o) := opt_ask (opt (emitter st)) lower upper in
    inr (batch, log st (set_opt (emitter st) o) (archive st) (EvOptAsk batch)).

(** [self.opt.tell(solutions, num_parents)] *)
Definition call_opt_tell (solutions : list Sol) (num_parents : option Z)
  : M unit :=
  fun st =>
    let o := opt_tell (opt (emitter st)) solutions num_parents in
    inr (tt, log st (set_opt (emitter st) o) (archive st)
                 (EvOptTell solutions num_parents)).

(** [self.opt.check_stop(values)] *)
Definition call_opt_check_stop (values : list Z) : M bool :=
  fun st =>
    let b := opt_check_stop (opt (emitter st)) values in
    inr (b, log st (emitter st) (archive st) (EvCheckStop values b)).

(** [self.opt.reset(x)] *)
Definition call_opt_reset (x : Sol) : M unit :=
  fun st =>
    let o := opt_reset (opt (emitter st)) x in
    inr (tt, log st (set_opt (emitter st) o) (archive st) (EvOptReset x)).

(** [self._restarts += 1] *)
Definition incr_restarts : M unit :=
  fun st =>
    inr (tt, {| emitter := set_restarts (emitter st)
                             (_restarts (emitter st) + 1);
                archive := archive st;
                trace := trace st |}).

Notation "x <- c ;; k" := (bind c (fun x => k))
  (at level 61, c at next level, right associativity).
Notation "' p <- c ;; k" := (bind c (fun x => match x with p => k end))
  (at level 61, p pattern, c at next level, right associativity).
Notation "c ;;; k" := (bind c (fun _ => k))
  (at level 61, right associativity).

(** *** ask *)

Definition ask (grad_estimate : bool) : M (list Sol) :=
  self <- get_self ;;
  call_opt_ask (lower_bounds self) (upper_bounds self).

(** *** tell *)

Definition _check_restart (self : ImprovementEmitter) (num_parents : Z) : bool :=
  if String.eqb (_restart_rule self) "no_improvement"
  then num_parents =? 0
  else false.

(** The [for] loop of [tell] over [enumerate(zip(...))], with its two
    local variables. *)
Fixpoint tell_loop (items : list (nat * (Sol * Obj * Beh * option Meta)))
  (ranking_data : list RankingRecord) (new_sols : Z)
  : M (list RankingRecord * Z) :=
  match items with
  | [] => ret (ranking_data, new_sols)
  | (i, (sol, obj, beh, meta)) :: rest =>
      ' (status, value, _) <- call_archive_add sol obj beh meta ;;
      let ranking_data := ranking_data ++ [(status, value, i)] in
      let new_sols := if status_added status then new_sols + 1 else new_sols in
      tell_loop rest ranking_data new_sols
  end.

Definition tell (solutions : list Sol) (objective_values : list Obj)
  (behavior_values : list Beh) (jacobian : option Jac)
  (metadata : option (list (option Meta))) : M unit :=
  let metadata :=
    match metadata with
    | None => itertools_repeat None
    | Some m => finite m
    end in
  ' (ranking_data, new_sols) <-
    tell_loop
      (enumerate (zip4 solutions objective_values behavior_values metadata))
      [] 0 ;;
  let ranking_data := sort_reverse ranking_data in
  let indices := map rr_index ranking_data in
  self <- get_self ;;
  let num_parents :=
    if String.eqb (_selection_rule self) "filter"
    then Some new_sols
    else _num_parents self in
  ranked <- lift (getitem IndexError solutions indices) ;;
  call_opt_tell ranked num_parents ;;;
  stop <- call_opt_check_stop (map rr_value ranking_data) ;;
  if stop || _check_restart self new_sols
  then
    elite <- call_get_random_elite ;;
    let new_x0 := fst elite in
    call_opt_reset new_x0 ;;;
    incr_restarts
  else ret tt.

(** *** Ask/tell cycles *)

(** [n] cycles of a caller that asks for a batch, evaluates it and tells the
    results; the batches are returned. *)
Fixpoint cycles (n : nat)
  (evaluate : list Sol -> list Obj * list Beh * option (list (option Meta)))
  : M (list (list Sol)) :=
  match n with
  | O => ret []
  | S n' =>
      batch <- ask false ;;
      let '(objs, behs, meta) := evaluate batch in
      tell batch objs behs None meta ;;;
      rest <- cycles n' evaluate ;;
      ret (batch :: rest)
  end.

(** Construction followed by [n] cycles on the same archive. *)
Definition experiment (a : Archive) (x0 : Sol) (sigma0 : Sigma)
  (selection_rule restart_rule weight_rule : string) (bounds : Bounds)
  (batch_size : option Z) (seed : option Z) (os : Entropy * Entropy)
  (n : nat)
  (evaluate : list Sol -> list Obj * list Beh * option (list (option Meta)))
  : exn OptExn + (list (list Sol) * State) :=
  match __init__ a x0 sigma0 selection_rule restart_rule weight_rule bounds
          batch_size seed os with
  | inl e => inl e
  | inr self => cycles n evaluate {| emitter := self; archive := a; trace := [] |}
  end.

(** The states an emitter built by [__init__] can be in: after any number
    of [ask] and [tell] calls, with the shared archive possibly changed by
    others in between. *)
Inductive reachable (e0 : ImprovementEmitter) : State -> Prop :=
| reach_init a x0 sigma0 sel res w bounds bs seed os tr :
    __init__ a x0 sigma0 sel res w bounds bs seed os = inr e0 ->
    reachable e0 {| emitter := e0; archive := a; trace := tr |}
| reach_ask st g batch st' :
    reachable e0 st -> ask g st = inr (batch, st') -> reachable e0 st'
| reach_tell st sols objs behs jac meta r st' :
    reachable e0 st -> tell sols objs behs jac meta st = inr (r, st') ->
    reachable e0 st'
| reach_archive st a :
    reachable e0 st ->
    reachable e0 {| emitter := emitter st; archive := a; trace := trace st |}.

(** *** Reading a trace *)

Definition is_add (ev : Event) : bool :=
  match ev with EvAdd _ _ _ _ _ _ => true | _ => false end.

(** The arguments of the archive insertions, in call order. *)
Fixpoint add_args (evs : list Event) : list (Sol * Obj * Beh * option Meta) :=
  match evs with
  | [] => []
  | EvAdd sol obj beh meta _ _ :: evs' => (sol, obj, beh, meta) :: add_args evs'
  | _ :: evs' => add_args evs'
  end.

(** The (status, value) outcomes of the archive insertions, in call order. *)
Fixpoint add_results (evs : list Event) : list (AddStatus * Z) :=
  match evs with
  | [] => []
  | EvAdd _ _ _ _ status value :: evs' => (status, value) :: add_results evs'
  | _ :: evs' => add_results evs'
  end.

(** The ranking records of a batch: the i-th insertion's status and value,
    with i. *)
Definition records_of (evs : list Event) : list RankingRecord :=
  map (fun p => (fst (snd p), snd (snd p), fst p)) (enumerate (add_results evs)).

(** How many insertions had status NEW or IMPROVE_EXISTING. *)
Fixpoint count_added (evs : list Event) : Z :=
  match evs with
  | [] => 0
  | EvAdd _ _ _ _ NEW _ :: evs' => 1 + count_added evs'
  | EvAdd _ _ _ _ IMPROVE_EXISTING _ :: evs' => 1 + count_added evs'
  | _ :: evs' => count_added evs'
  end.

(** How many times [Optimizer.reset] was called. *)
Fixpoint count_resets (evs : list Event) : Z :=
  match evs with
  | [] => 0
  | EvOptReset _ :: evs' => 1 + count_resets evs'
  | _ :: evs' => count_resets evs'
  end.

(** The (solutions, num_parents) arguments of the [Optimizer.tell] calls. *)
Fixpoint tell_calls (evs : list Event) : list (list Sol * option Z) :=
  match evs with
  | [] => []
  | EvOptTell sols np :: evs' => (sols, np) :: tell_calls evs'
  | _ :: evs' => tell_calls evs'
  end.

(** The arguments of the [Optimizer.check_stop] calls. *)
Fixpoint check_stop_calls (evs : list Event) : list (list Z) :=
  match evs with
  | [] => []
  | EvCheckStop values _ :: evs' => values :: check_stop_calls evs'
  | _ :: evs' => check_stop_calls evs'
  end.

(** *** The ranking order, in the words of the specification *)

(** NEW before IMPROVE_EXISTING before NOT_ADDED; within a status the
    higher improvement value first; within equal status and value the
    higher batch index first. *)
Definition ranks_before (a b : RankingRecord) : Prop :=
  match rr_status a, rr_status b with
  | NEW, IMPROVE_EXISTING => True
  | NEW, NOT_ADDED => True
  | IMPROVE_EXISTING, NOT_ADDED => True
  | NEW, NEW | IMPROVE_EXISTING, IMPROVE_EXISTING | NOT_ADDED, NOT_ADDED =>
      rr_value b < rr_value a \/
      (rr_value a = rr_value b /\ (rr_index b < rr_index a)%nat)
  | _, _ => False
  end.

(** The loop of [tell] without the monad: the events, the records and the
    archive after inserting [items] in order. *)
Fixpoint add_all (a : Archive)
  (items : list (nat * (Sol * Obj * Beh * option Meta)))
  : list Event * list RankingRecord * Archive :=
  match items with
  | [] => ([], [], a)
  | (i, (sol, obj, beh, meta)) :: rest =>
      let '(r, a') := archive_add a sol obj beh meta in
      let '(evs, recs, a'') := add_all a' rest in
      (EvAdd sol obj beh meta (fst (fst r)) (snd (fst r)) :: evs,
       (fst (fst r), snd (fst r), i) :: recs, a'')
  end.

(** The items of a [tell] call, as its loop sees them. *)
Definition batch_items (solutions : list Sol) (objective_values : list Obj)
  (behavior_values : list Beh) (metadata : option (list (option Meta)))
  : list (nat * (Sol * Obj * Beh * option Meta)) :=
  enumerate
    (zip4 solutions objective_values behavior_values
       (match metadata with
        | None => itertools_repeat None
        | Some m => finite m
        end)).

Definition batch_adds (a : Archive)
  (items : list (nat * (Sol * Obj * Beh * option Meta))) : list Event :=
  fst (fst (add_all a items)).

Definition batch_records (a : Archive)
  (items : list (nat * (Sol * Obj * Beh * option Meta))) : list RankingRecord :=
  snd (fst (add_all a items)).

Definition batch_archive (a : Archive)
  (items : list (nat * (Sol * Obj * Beh * option Meta))) : Archive :=
  snd (add_all a items).

(** The fields of the emitter that [__init__] sets and nothing else
    assigns: the generator, the effective batch size, x0, sigma0, the
    solution dimension and bounds, the two rules and the parent count of
    the "mu" rule. *)
Definition same_config (e e' : ImprovementEmitter) : Prop :=
  _rng e' = _rng e /\
  _batch_size e' = _batch_size e /\
  _x0 e' = _x0 e /\
  _sigma0 e' = _sigma0 e /\
  _solution_dim e' = _solution_dim e /\
  lower_bounds e' = lower_bounds e /\
  upper_bounds e' = upper_bounds e /\
  _selection_rule e' = _selection_rule e /\
  _restart_rule e' = _restart_rule e /\
  _num_parents e' = _num_parents e.

(** What [__init__] establishes about the rules and the parent count. *)
Definition valid_config (e : ImprovementEmitter) : Prop :=
  ((_selection_rule e = "filter" /\ _num_parents e = None) \/
   (_selection_rule e = "mu" /\ _num_parents e = Some (_batch_size e / 2))) /\
  (_restart_rule e = "basic" \/ _restart_rule e = "no_improvement").

(** The archive after the archive calls of a trace. *)
Fixpoint replay_archive (a : Archive) (evs : list Event) : Archive :=
  match evs with
  | [] => a
  | EvAdd sol obj beh meta _ _ :: evs' =>
      replay_archive (snd (archive_add a sol obj beh meta)) evs'
  | EvGetRandomElite _ :: evs' =>
      replay_archive (snd (archive_get_random_elite a)) evs'
  | _ :: evs' => replay_archive a evs'
  end.

(** The optimizer after the optimizer calls of a trace. *)
Fixpoint replay_opt (lower upper : BoundArr) (o : Opt) (evs : list Event) : Opt :=
  match evs with
  | [] => o
  | EvOptAsk _ :: evs' => replay_opt lower upper (snd (opt_ask o lower upper)) evs'
  | EvOptTell sols np :: evs' => replay_opt lower upper (opt_tell o sols np) evs'
  | EvOptReset x :: evs' => replay_opt lower upper (opt_reset o x) evs'
  | _ :: evs' => replay_opt lower upper o evs'
  end.

(** The events a [tell] call may produce. *)
Definition is_tell_event (ev : Event) : bool :=
  match ev with
  | EvOptAsk _ => false
  | _ => true
  end.

(** The calls that make a restart. *)
Definition restart_events (fires : bool) (elite : Sol) : list Event :=
  if fires then [EvGetRandomElite elite; EvOptReset elite] else [].

End Emitter.

(** ** Concrete collaborators

    A small grid archive (one cell per behavior value) and a small optimizer,
    used to run the emitter on concrete batches. *)

Module Demo.

#[export] Instance numpy : Numpy := {|
  Sol := list Z;
  Obj := Z;
  Beh := Z;
  Meta := string;
  Jac := unit;
  Dtype := unit;
  Bounds := unit;
  BoundArr := unit;
  Sigma := Z;
  Rng := Z;
  Entropy := Z;
  np_array := fun x _ => x;
  np_len := fun x => Z.of_nat (length x);
  rng_of_seed := fun s => s;
  rng_of_entropy := fun e => e;
  rng_integers := fun r n => (r mod n, r + 1)
|}.

(** An elite: its cell, objective, solution and metadata. *)
Definition Elite : Type := Z * Z * list Z * option string.

Record GridArchive : Type := {
  elites : list Elite;
  draws : nat      (* state of the archive's own generator *)
}.

Definition elite_cell (e : Elite) : Z := fst (fst (fst e)).
Definition elite_obj (e : Elite) : Z := snd (fst (fst e)).
Definition elite_sol (e : Elite) : list Z := snd (fst e).

Fixpoint find_cell (c : Z) (l : list Elite) : option Elite :=
  match l with
  | [] => None
  | e :: l' => if elite_cell e =? c then Some e else find_cell c l'
  end.

Fixpoint replace_cell (new : Elite) (l : list Elite) : list Elite :=
  match l with
  | [] => []
  | e :: l' =>
      if elite_cell e =? elite_cell new then new :: l'
      else e :: replace_cell new l'
  end.

(** A new cell gives NEW with the objective as value; an occupied cell gives
    IMPROVE_EXISTING or NOT_ADDED with the objective difference as value. *)
Definition grid_add (a : GridArchive) (sol : list Z) (obj beh : Z)
  (meta : option string) : (AddStatus * Z * Z) * GridArchive :=
  match find_cell beh (elites a) with
  | None =>
      ((NEW, obj, beh),
       {| elites := elites a ++ [(beh, obj, sol, meta)]; draws := draws a |})
  | Some old =>
      if elite_obj old <? obj
      then ((IMPROVE_EXISTING, obj - elite_obj old, beh),
            {| elites := replace_cell (beh, obj, sol, meta) (elites a);
               draws := draws a |})
      else ((NOT_ADDED, obj - elite_obj old, beh), a)
  end.

Definition grid_get_random_elite (a : GridArchive)
  : (list Z * (Z * Z)) * GridArchive :=
  let e := nth (Nat.modulo (draws a) (length (elites a))) (elites a)
               (0, 0, [], None) in
  ((elite_sol e, (elite_obj e, elite_cell e)),
   {| elites := elites a; draws := S (draws a) |}).

#[export] Instance grid : ArchiveBase := {|
  Archive := GridArchive;
  EntryId := Z;
  EliteRest := Z * Z;
  archive_dtype := fun _ => tt;
  archive_add := grid_add;
  archive_get_random_elite := grid_get_random_elite
|}.

Record Es : Type := {
  es_mean : list Z;
  es_sigma : Z;
  es_rng : Z;
  es_batch : Z
}.

(** The optimizer accepts the two weight rules and refuses any other. *)
Definition es_new (sigma : Z) (bs : option Z) (dim : Z) (weight_rule : string)
  (rng : Z) (_ : unit) : string + Es :=
  if str_in weight_rule ["truncation"; "active"]
  then inr {| es_mean := []; es_sigma := sigma; es_rng := rng;
              es_batch := match bs with Some b => b | None => 4 end |}
  else inl ("Invalid weight_rule " ++ weight_rule)%string.

Definition es_reset (o : Es) (x : list Z) : Es :=
  {| es_mean := x; es_sigma := es_sigma o; es_rng := es_rng o;
     es_batch := es_batch o |}.

(** A batch of [es_batch] solutions around the mean, moved by the generator. *)
Definition es_ask (o : Es) (_ _ : unit) : list (list Z) * Es :=
  (map (fun k => map (fun m => m + es_sigma o * (es_rng o + Z.of_nat k)) (es_mean o))
       (seq 0 (Z.to_nat (es_batch o))),
   {| es_mean := es_mean o; es_sigma := es_sigma o; es_rng := es_rng o + 1;
      es_batch := es_batch o |}).

(** The mean moves to the best parent, if there is one. *)
Definition es_tell (o : Es) (sols : list (list Z)) (num_parents : option Z) : Es :=
  match num_parents, sols with
  | Some n, x :: _ => if 0 <? n then es_reset o x else o
  | _, _ => o
  end.

(** Stop when the ranking values are flat. *)
Definition es_check_stop (o : Es) (values : list Z) : bool :=
  match values with
  | [] => true
  | v :: _ => v =? last values v
  end.

#[export] Instance es : Optimizer := {|
  Opt := Es;
  OptExn := string;
  CMAEvolutionStrategy := es_new;
  opt_batch_size := es_batch;
  opt_reset := es_reset;
  opt_ask := es_ask;
  opt_tell := es_tell;
  opt_check_stop := es_check_stop
|}.

#[export] Instance base : EmitterBase := {|
  process_bounds := fun _ _ => (tt, tt)
|}.

Definition empty_archive : GridArchive := {| elites := []; draws := 0 |}.

(** An archive whose cells 0..3 hold elites of objective 10. *)
Definition full_archive : GridArchive :=
  {| elites := [(0, 10, [0; 0], None); (1, 10, [1; 1], None);
                (2, 10, [2; 2], None); (3, 10, [3; 3], None)];
     draws := 0 |}.

(** An emitter as [__init__] builds it from x0 = [0, 0], sigma0 = 1,
    batch_size = 4 and seed 7. *)
Definition emitter_of (selection_rule restart_rule : string)
  : exn string + ImprovementEmitter :=
  __init__ empty_archive [0; 0] 1 selection_rule restart_rule "truncation" tt
           (Some 4) (Some 7) (0, 0).

Definition state_of (selection_rule restart_rule : string) (a : GridArchive)
  : option State :=
  match emitter_of selection_rule restart_rule with
  | inl _ => None
  | inr e => Some {| emitter := e; archive := a; trace := [] |}
  end.

(** The emitter [emitter_of] returns for valid rules. *)
Definition built (selection_rule restart_rule : string) : ImprovementEmitter :=
  {| _rng := 8;
     _batch_size := 4;
     _x0 := [0; 0];
     _sigma0 := 1;
     _solution_dim := 2;
     lower_bounds := tt;
     upper_bounds := tt;
     _selection_rule := selection_rule;
     _restart_rule := restart_rule;
     opt := {| es_mean := [0; 0]; es_sigma := 1; es_rng := 7; es_batch := 4 |};
     _num_parents := if String.eqb selection_rule "mu" then Some 2 else None;
     _restarts := 0 |}.

Definition fresh (selection_rule restart_rule : string) (a : GridArchive)
  : State :=
  {| emitter := built selection_rule restart_rule; archive := a; trace := [] |}.

(** A batch of four solutions with their objectives and behaviors. *)
Definition batch4 : list (list Z) := [[7; 7]; [8; 8]; [9; 9]; [10; 10]].
Definition objs4 : list Z := [1; 2; 3; 4].
Definition behs4 : list Z := [0; 1; 2; 3].

(** A caller that takes the first coordinate of a solution as its objective
    and as its behavior. *)
Definition evaluate (batch : list (list Z))
  : list Z * list Z * option (list (option string)) :=
  (map (hd 0) batch, map (hd 0) batch, None).

End Demo.

(** The records with an ordinary number as value, under a name that
    [Module Py] can use beside its own records. *)
Definition number_record : Type := RankingRecord.

(** ** The emitter with float values and with collaborators that may raise

    The definitions above describe the runs in which no collaborator raises
    and improvement values are ordinary numbers.  [Module Py] embeds the
    same source lines without these two restrictions: an improvement value
    may be NaN, whose comparisons are all false, and every call to numpy,
    to the archive, to the optimizer or to [EmitterBase.__init__] may raise
    a Python exception, which the emitter never catches. *)

Module Py.

(** A Python float: a number, or NaN. *)
Inductive pyfloat : Type :=
| Fnum (x : Z)
| Fnan.

(** [a == b] and [a < b] on floats: false as soon as one side is NaN. *)
Definition float_eqb (a b : pyfloat) : bool :=
  match a, b with
  | Fnum x, Fnum y => x =? y
  | _, _ => false
  end.

Definition float_ltb (a b : pyfloat) : bool :=
  match a, b with
  | Fnum x, Fnum y => x <? y
  | _, _ => false
  end.

Definition RankingRecord : Type := AddStatus * pyfloat * nat.

Definition rr_status (d : RankingRecord) : AddStatus := fst (fst d).
Definition rr_value (d : RankingRecord) : pyfloat := snd (fst d).
Definition rr_index (d : RankingRecord) : nat := snd d.

(** Python's [a < b] on two 3-tuples: the first position where the
    components are not [==] decides. *)
Definition tuple_ltb (a b : RankingRecord) : bool :=
  if negb (AddStatus_eqb (rr_status a) (rr_status b))
  then AddStatus_int (rr_status a) <? AddStatus_int (rr_status b)
  else if negb (float_eqb (rr_value a) (rr_value b))
  then float_ltb (rr_value a) (rr_value b)
  else Nat.ltb (rr_index a) (rr_index b).

(** [list.sort], as a stable insertion sort.  Every stable sort gives this
    result when [<] orders the elements consistently, and on a list of two
    elements whatever [<] answers. *)
Fixpoint insort (x : RankingRecord) (l : list RankingRecord) : list RankingRecord :=
  match l with
  | [] => [x]
  | y :: l' => if tuple_ltb x y then x :: y :: l' else y :: insort x l'
  end.

Definition list_sort (l : list RankingRecord) : list RankingRecord :=
  fold_left (fun acc x => insort x acc) l [].

Definition sort_reverse (l : list RankingRecord) : list RankingRecord :=
  rev (list_sort (rev l)).

(** The ranking order in the words of the specification, on float values:
    a higher value is one the other is [<] of, an equal value one that is
    [==]. *)
Definition ranks_before (a b : RankingRecord) : Prop :=
  match rr_status a, rr_status b with
  | NEW, IMPROVE_EXISTING => True
  | NEW, NOT_ADDED => True
  | IMPROVE_EXISTING, NOT_ADDED => True
  | NEW, NEW | IMPROVE_EXISTING, IMPROVE_EXISTING | NOT_ADDED, NOT_ADDED =>
      float_ltb (rr_value b) (rr_value a) = true \/
      (float_eqb (rr_value a) (rr_value b) = true /\
       (rr_index b < rr_index a)%nat)
  | _, _ => False
  end.

(** A Python exception: its class and its message. *)
Record Exception : Type := {
  exc_type : string;
  exc_msg : string
}.

Definition ValueError (msg : string) : Exception :=
  {| exc_type := "ValueError"; exc_msg := msg |}.

Definition IndexError (msg : string) : Exception :=
  {| exc_type := "IndexError"; exc_msg := msg |}.

(** What a call gives: an exception or a value. *)
Definition result (A : Type) : Type := (Exception + A)%type.

Definition rbind {A B : Type} (r : result A) (k : A -> result B) : result B :=
  match r with
  | inl e => inl e
  | inr x => k x
  end.

(** numpy.  [default_rng] raises on a seed it does not accept,
    [np.array] and [len] on an x0 they cannot handle. *)
Class Numpy : Type := {
  Sol : Type;
  Obj : Type;
  Beh : Type;
  Meta : Type;
  Jac : Type;
  Dtype : Type;
  Bounds : Type;
  BoundArr : Type;
  Sigma : Type;
  Rng : Type;
  Entropy : Type;
  np_array : Sol -> Dtype -> result Sol;
  np_len : Sol -> result Z;
  default_rng : option Z -> Entropy -> result Rng;
  rng_integers : Rng -> Z -> result (Z * Rng)
}.

(** The archive.  A call may raise, and may have changed the archive
    before it does. *)
Class ArchiveBase `{Numpy} : Type := {
  Archive : Type;
  EntryId : Type;
  EliteRest : Type;
  archive_dtype : Archive -> Dtype;
  archive_add : Archive -> Sol -> Obj -> Beh -> option Meta
                -> result (AddStatus * pyfloat * EntryId) * Archive;
  archive_get_random_elite : Archive -> result (Sol * EliteRest) * Archive
}.

(** Modelled from the spec: [ribs.emitters.opt.CMAEvolutionStrategy] is
    declared elsewhere.  Its constructor takes the seed and, without one,
    the operating system's entropy; every method may raise. *)
Class Optimizer `{Numpy} : Type := {
  Opt : Type;
  CMAEvolutionStrategy : Sigma -> option Z -> Z -> string -> option Z
                         -> Entropy -> Dtype -> result Opt;
  opt_batch_size : Opt -> Z;
  opt_reset : Opt -> Sol -> result unit * Opt;
  opt_ask : Opt -> BoundArr -> BoundArr -> result (list Sol) * Opt;
  opt_tell : Opt -> list Sol -> option Z -> result unit * Opt;
  opt_check_stop : Opt -> list pyfloat -> result bool * Opt
}.

(** Modelled from the spec: [EmitterBase.__init__] is declared elsewhere;
    it turns [bounds] into the arrays [lower_bounds] and [upper_bounds] and
    raises on bounds that do not fit the solution dimension. *)
Class EmitterBase `{Numpy} : Type := {
  emitter_base_init : Z -> Bounds -> result (BoundArr * BoundArr)
}.

Section Emitter.

Context `{NP : Numpy} {AR : ArchiveBase} {OP : Optimizer} {EB : EmitterBase}.

Record ImprovementEmitter : Type := {
  _rng : Rng;
  _batch_size : Z;
  _x0 : Sol;
  _sigma0 : Sigma;
  _solution_dim : Z;
  lower_bounds : BoundArr;
  upper_bounds : BoundArr;
  _selection_rule : string;
  _restart_rule : string;
  opt : Opt;
  _num_parents : option Z;
  _restarts : Z
}.

Definition set_opt (self : ImprovementEmitter) (o : Opt) : ImprovementEmitter :=
  {| _rng := _rng self; _batch_size := _batch_size self; _x0 := _x0 self;
     _sigma0 := _sigma0 self; _solution_dim := _solution_dim self;
     lower_bounds := lower_bounds self; upper_bounds := upper_bounds self;
     _selection_rule := _selection_rule self;
     _restart_rule := _restart_rule self;
     opt := o;
     _num_parents := _num_parents self; _restarts := _restarts self |}.

Definition set_restarts (self : ImprovementEmitter) (r : Z) : ImprovementEmitter :=
  {| _rng := _rng self; _batch_size := _batch_size self; _x0 := _x0 self;
     _sigma0 := _sigma0 self; _solution_dim := _solution_dim self;
     lower_bounds := lower_bounds self; upper_bounds := upper_bounds self;
     _selection_rule := _selection_rule self;
     _restart_rule := _restart_rule self;
     opt := opt self;
     _num_parents := _num_parents self; _restarts := r |}.

(** Line 83: the optimizer's seed. *)
Definition draw_opt_seed (seed : option Z) (rng : Rng)
  : result (option Z * Rng) :=
  match seed with
  | None => inr (None, rng)
  | Some _ =>
      rbind (rng_integers rng 10000) (fun kr => inr (Some (fst kr), snd kr))
  end.

(** [__init__], statement by statement; the first exception ends it. *)
Definition __init__ (archive : Archive) (x0 : Sol) (sigma0 : Sigma)
  (selection_rule restart_rule weight_rule : string) (bounds : Bounds)
  (batch_size : option Z) (seed : option Z) (os : Entropy * Entropy)
  : result ImprovementEmitter :=
  rbind (default_rng seed (fst os)) (fun rng =>
  rbind (np_array x0 (archive_dtype archive)) (fun x0' =>
  rbind (np_len x0') (fun solution_dim =>
  rbind (emitter_base_init solution_dim bounds) (fun lu =>
  if negb (str_in selection_rule ["mu"; "filter"])
  then inl (ValueError ("Invalid selection_rule " ++ selection_rule)%string)
  else
  if negb (str_in restart_rule ["basic"; "no_improvement"])
  then inl (ValueError ("Invalid restart_rule " ++ restart_rule)%string)
  else
  rbind (draw_opt_seed seed rng) (fun sr =>
  rbind (CMAEvolutionStrategy sigma0 batch_size solution_dim weight_rule
           (fst sr) (snd os) (archive_dtype archive)) (fun o =>
  match opt_reset o x0' with
  | (inl e, _) => inl e
  | (inr _, o) =>
      inr {| _rng := snd sr;
             _batch_size := opt_batch_size o;
             _x0 := x0';
             _sigma0 := sigma0;
             _solution_dim := solution_dim;
             lower_bounds := fst lu;
             upper_bounds := snd lu;
             _selection_rule := selection_rule;
             _restart_rule := restart_rule;
             opt := o;
             _num_parents :=
               (if String.eqb selection_rule "mu"
                then Some (opt_batch_size o / 2) else None);
             _restarts := 0 |}
  end)))))).

Definition batch_size (self : ImprovementEmitter) : Z := _batch_size self.

(** The calls, each logged with its arguments and with what it gave. *)
Inductive Event : Type :=
| EvAdd (sol : Sol) (obj : Obj) (beh : Beh) (meta : option Meta)
        (r : result (AddStatus * pyfloat))
| EvOptAsk (r : result (list Sol))
| EvOptTell (solutions : list Sol) (num_parents : option Z) (r : result unit)
| EvCheckStop (values : list pyfloat) (r : result bool)
| EvGetRandomElite (r : result Sol)
| EvOptReset (x : Sol) (r : result unit).

Record State : Type := {
  emitter : ImprovementEmitter;
  archive : Archive;
  trace : list Event
}.

(** A computation ends with a value or an exception; the objects keep the
    changes made before the exception. *)
Definition M (A : Type) : Type := State -> result A * State.

Definition ret {A : Type} (x : A) : M A := fun st => (inr x, st).

Definition bind {A B : Type} (c : M A) (k : A -> M B) : M B :=
  fun st => match c st with
            | (inl e, st') => (inl e, st')
            | (inr x, st') => k x st'
            end.

Definition lift {A : Type} (r : result A) : M A := fun st => (r, st).

Definition get_self : M ImprovementEmitter := fun st => (inr (emitter st), st).

Definition log (st : State) (self : ImprovementEmitter) (a : Archive)
  (ev : Event) : State :=
  {| emitter := self; archive := a; trace := trace st ++ [ev] |}.

Definition rmap {A B : Type} (f : A -> B) (r : result A) : result B :=
  match r with
  | inl e => inl e
  | inr x => inr (f x)
  end.

Definition call_archive_add (sol : Sol) (obj : Obj) (beh : Beh)
  (meta : option Meta) : M (AddStatus * pyfloat * EntryId) :=
  fun st =>
    let '(r, a) := archive_add (archive st) sol obj beh meta in
    (r, log st (emitter st) a (EvAdd sol obj beh meta (rmap fst r))).

Definition call_get_random_elite : M (Sol * EliteRest) :=
  fun st =>
    let '(r, a) := archive_get_random_elite (archive st) in
    (r, log st (emitter st) a (EvGetRandomElite (rmap fst r))).

Definition call_opt_ask (lower upper : BoundArr) : M (list Sol) :=
  fun st =>
    let '(r, o) := opt_ask (opt (emitter st)) lower upper in
    (r, log st (set_opt (emitter st) o) (archive st) (EvOptAsk r)).

Definition call_opt_tell (solutions : list Sol) (num_parents : option Z)
  : M unit :=
  fun st =>
    let '(r, o) := opt_tell (opt (emitter st)) solutions num_parents in
    (r, log st (set_opt (emitter st) o) (archive st)
            (EvOptTell solutions num_parents r)).

Definition call_opt_check_stop (values : list pyfloat) : M bool :=
  fun st =>
    let '(r, o) := opt_check_stop (opt (emitter st)) values in
    (r, log st (set_opt (emitter st) o) (archive st) (EvCheckStop values r)).

Definition call_opt_reset (x : Sol) : M unit :=
  fun st =>
    let '(r, o) := opt_reset (opt (emitter st)) x in
    (r, log st (set_opt (emitter st) o) (archive st) (EvOptReset x r)).

Definition incr_restarts : M unit :=
  fun st =>
    (inr tt, {| emitter := set_restarts (emitter st)
                             (_restarts (emitter st) + 1);
                archive := archive st;
                trace := trace st |}).

Notation "x <- c ;; k" := (bind c (fun x => k))
  (at level 61, c at next level, right associativity).
Notation "' p <- c ;; k" := (bind c (fun x => match x with p => k end))
  (at level 61, p pattern, c at next level, right associativity).
Notation "c ;;; k" := (bind c (fun _ => k))
  (at level 61, right associativity).

Definition ask (grad_estimate : bool) : M (list Sol) :=
  self <- get_self ;;
  call_opt_ask (lower_bounds self) (upper_bounds self).

Definition _check_restart (self : ImprovementEmitter) (num_parents : Z) : bool :=
  if String.eqb (_restart_rule self) "no_improvement"
  then num_parents =? 0
  else false.

Fixpoint tell_loop (items : list (nat * (Sol * Obj * Beh * option Meta)))
  (ranking_data : list RankingRecord) (new_sols : Z)
  : M (list RankingRecord * Z) :=
  match items with
  | [] => ret (ranking_data, new_sols)
  | (i, (sol, obj, beh, meta)) :: rest =>
      ' (status, value, _) <- call_archive_add sol obj beh meta ;;
      let ranking_data := ranking_data ++ [(status, value, i)] in
      let new_sols := if status_added status then new_sols + 1 else new_sols in
      tell_loop rest ranking_data new_sols
  end.

Definition tell (solutions : list Sol) (objective_values : list Obj)
  (behavior_values : list Beh) (jacobian : option Jac)
  (metadata : option (list (option Meta))) : M unit :=
  let metadata :=
    match metadata with
    | None => itertools_repeat None
    | Some m => finite m
    end in
  ' (ranking_data, new_sols) <-
    tell_loop
      (enumerate (zip4 solutions objective_values behavior_values metadata))
      [] 0 ;;
  let ranking_data := sort_reverse ranking_data in
  let indices := map rr_index ranking_data in
  self <- get_self ;;
  let num_parents :=
    if String.eqb (_selection_rule self) "filter"
    then Some new_sols
    else _num_parents self in
  ranked <- lift (getitem (IndexError "index out of bounds") solutions indices) ;;
  call_opt_tell ranked num_parents ;;;
  stop <- call_opt_check_stop (map rr_value ranking_data) ;;
  if stop || _check_restart self new_sols
  then
    elite <- call_get_random_elite ;;
    let new_x0 := fst elite in
    call_opt_reset new_x0 ;;;
    incr_restarts
  else ret tt.

(** *** Reading a trace *)

Definition is_add (ev : Event) : bool :=
  match ev with EvAdd _ _ _ _ _ => true | _ => false end.

Fixpoint add_args (evs : list Event) : list (Sol * Obj * Beh * option Meta) :=
  match evs with
  | [] => []
  | EvAdd sol obj beh meta _ :: evs' => (sol, obj, beh, meta) :: add_args evs'
  | _ :: evs' => add_args evs'
  end.

(** What the insertions gave, in call order. *)
Fixpoint add_results (evs : list Event) : list (result (AddStatus * pyfloat)) :=
  match evs with
  | [] => []
  | EvAdd _ _ _ _ r :: evs' => r :: add_results evs'
  | _ :: evs' => add_results evs'
  end.

(** An insertion that returned, with a value that is not NaN. *)
Definition add_fine (r : result (AddStatus * pyfloat)) : Prop :=
  exists s x, r = inr (s, Fnum x).

(** An insertion that returned. *)
Definition add_returned (r : result (AddStatus * pyfloat)) : Prop :=
  exists s v, r = inr (s, v).

(** The ranking records of the insertions that returned, numbered in call
    order. *)
Fixpoint records_from (i : nat) (rs : list (result (AddStatus * pyfloat)))
  : list RankingRecord :=
  match rs with
  | [] => []
  | inr (s, v) :: rs' => (s, v, i) :: records_from (S i) rs'
  | inl _ :: rs' => records_from (S i) rs'
  end.

Definition records_of (evs : list Event) : list RankingRecord :=
  records_from 0 (add_results evs).

(** The exception an event ended with, if it did. *)
Definition raised (ev : Event) : option Exception :=
  match ev with
  | EvAdd _ _ _ _ (inl e) => Some e
  | EvOptAsk (inl e) => Some e
  | EvOptTell _ _ (inl e) => Some e
  | EvCheckStop _ (inl e) => Some e
  | EvGetRandomElite (inl e) => Some e
  | EvOptReset _ (inl e) => Some e
  | _ => None
  end.

(** The first exception of a trace. *)
Fixpoint first_raised (evs : list Event) : option Exception :=
  match evs with
  | [] => None
  | ev :: evs' =>
      match raised ev with
      | Some e => Some e
      | None => first_raised evs'
      end
  end.

(** How [tell] ends when the calls of [evs] are all it did. *)
Definition outcome (evs : list Event) : result unit :=
  match first_raised evs with
  | Some e => inl e
  | None => inr tt
  end.

Fixpoint tell_calls (evs : list Event)
  : list (list Sol * option Z * result unit) :=
  match evs with
  | [] => []
  | EvOptTell sols np r :: evs' => (sols, np, r) :: tell_calls evs'
  | _ :: evs' => tell_calls evs'
  end.

(** The loop of [tell] without the monad: the insertions are made in order
    until one raises. *)
Fixpoint add_all (a : Archive)
  (items : list (nat * (Sol * Obj * Beh * option Meta)))
  : list Event * Archive :=
  match items with
  | [] => ([], a)
  | (i, (sol, obj, beh, meta)) :: rest =>
      let '(r, a') := archive_add a sol obj beh meta in
      match r with
      | inl e => ([EvAdd sol obj beh meta (inl e)], a')
      | inr x =>
          let '(evs, a'') := add_all a' rest in
          (EvAdd sol obj beh meta (inr (fst x)) :: evs, a'')
      end
  end.

End Emitter.

(** A record with an ordinary number as value. *)
Definition of_number (d : number_record) : RankingRecord :=
  (fst (fst d), Fnum (snd (fst d)), snd d).

End Py.

(** ** Concrete collaborators that raise

    The grid archive with float objectives, whose [get_random_elite] raises
    on an empty archive; an optimizer whose [tell] raises when it is asked
    for more parents than it is given solutions and whose [check_stop]
    raises on an empty list; a generator that refuses negative seeds; and
    bounds that must have one entry per dimension. *)

Module PyDemo.

Import Py.

Definition float_sub (a b : pyfloat) : pyfloat :=
  match a, b with
  | Fnum x, Fnum y => Fnum (x - y)
  | _, _ => Fnan
  end.

#[export] Instance numpy : Numpy := {|
  Sol := list Z;
  Obj := pyfloat;
  Beh := Z;
  Meta := string;
  Jac := unit;
  Dtype := unit;
  Bounds := option (list (option Z * option Z));
  BoundArr := list (option Z);
  Sigma := Z;
  Rng := Z;
  Entropy := Z;
  np_array := fun x _ => inr x;
  np_len := fun x => inr (Z.of_nat (length x));
  default_rng := fun seed os =>
    match seed with
    | Some s => if s <? 0
                then inl (ValueError "expected non-negative integer")
                else inr s
    | None => inr os
    end;
  rng_integers := fun r n => inr (r mod n, r + 1)
|}.

Definition Elite : Type := Z * pyfloat * list Z * option string.

Record GridArchive : Type := {
  elites : list Elite;
  draws : nat
}.

Definition elite_cell (e : Elite) : Z := fst (fst (fst e)).
Definition elite_obj (e : Elite) : pyfloat := snd (fst (fst e)).
Definition elite_sol (e : Elite) : list Z := snd (fst e).

Fixpoint find_cell (c : Z) (l : list Elite) : option Elite :=
  match l with
  | [] => None
  | e :: l' => if elite_cell e =? c then Some e else find_cell c l'
  end.

Fixpoint replace_cell (new : Elite) (l : list Elite) : list Elite :=
  match l with
  | [] => []
  | e :: l' =>
      if elite_cell e =? elite_cell new then new :: l'
      else e :: replace_cell new l'
  end.

Definition grid_add (a : GridArchive) (sol : list Z) (obj : pyfloat)
  (beh : Z) (meta : option string)
  : result (AddStatus * pyfloat * Z) * GridArchive :=
  match find_cell beh (elites a) with
  | None =>
      (inr (NEW, obj, beh),
       {| elites := elites a ++ [(beh, obj, sol, meta)]; draws := draws a |})
  | Some old =>
      if float_ltb (elite_obj old) obj
      then (inr (IMPROVE_EXISTING, float_sub obj (elite_obj old), beh),
            {| elites := replace_cell (beh, obj, sol, meta) (elites a);
               draws := draws a |})
      else (inr (NOT_ADDED, float_sub obj (elite_obj old), beh), a)
  end.

Definition grid_get_random_elite (a : GridArchive)
  : result (list Z * (pyfloat * Z)) * GridArchive :=
  match elites a with
  | [] => (inl (IndexError "No elements in archive."), a)
  | e0 :: _ =>
      let e := nth (Nat.modulo (draws a) (length (elites a))) (elites a) e0 in
      (inr (elite_sol e, (elite_obj e, elite_cell e)),
       {| elites := elites a; draws := S (draws a) |})
  end.

#[export] Instance grid : ArchiveBase := {|
  Archive := GridArchive;
  EntryId := Z;
  EliteRest := pyfloat * Z;
  archive_dtype := fun _ => tt;
  archive_add := grid_add;
  archive_get_random_elite := grid_get_random_elite
|}.

Record Es : Type := {
  es_mean : list Z;
  es_sigma : Z;
  es_rng : Z;
  es_batch : Z
}.

Definition es_new (sigma : Z) (bs : option Z) (dim : Z) (weight_rule : string)
  (opt_seed : option Z) (os : Z) (_ : unit) : result Es :=
  if str_in weight_rule ["truncation"; "active"]
  then inr {| es_mean := []; es_sigma := sigma;
              es_rng := match opt_seed with Some k => k | None => os end;
              es_batch := match bs with Some b => b | None => 4 end |}
  else inl (ValueError ("Invalid weight_rule " ++ weight_rule)%string).

Definition es_reset (o : Es) (x : list Z) : result unit * Es :=
  (inr tt, {| es_mean := x; es_sigma := es_sigma o; es_rng := es_rng o;
              es_batch := es_batch o |}).

Definition es_ask (o : Es) (_ _ : list (option Z))
  : result (list (list Z)) * Es :=
  (inr (map (fun k => map (fun m => m + es_sigma o * (es_rng o + Z.of_nat k))
                          (es_mean o))
            (seq 0 (Z.to_nat (es_batch o)))),
   {| es_mean := es_mean o; es_sigma := es_sigma o; es_rng := es_rng o + 1;
      es_batch := es_batch o |}).

(** More parents than solutions: the weights do not fit the parents. *)
Definition es_tell (o : Es) (sols : list (list Z)) (num_parents : option Z)
  : result unit * Es :=
  match num_parents with
  | Some n =>
      if Z.of_nat (length sols) <? n
      then (inl (ValueError "operands could not be broadcast together"), o)
      else match sols with
           | x :: _ => if 0 <? n then es_reset o x else (inr tt, o)
           | [] => (inr tt, o)
           end
  | None => (inr tt, o)
  end.

(** Stop when the first and the last ranking value are equal. *)
Definition es_check_stop (o : Es) (values : list pyfloat) : result bool * Es :=
  match values with
  | [] => (inl (IndexError "index 0 is out of bounds"), o)
  | v :: _ => (inr (float_eqb v (last values v)), o)
  end.

#[export] Instance es : Optimizer := {|
  Opt := Es;
  CMAEvolutionStrategy := es_new;
  opt_batch_size := es_batch;
  opt_reset := es_reset;
  opt_ask := es_ask;
  opt_tell := es_tell;
  opt_check_stop := es_check_stop
|}.

Definition base_init (dim : Z) (bounds : option (list (option Z * option Z)))
  : result (list (option Z) * list (option Z)) :=
  match bounds with
  | None => inr (repeat None (Z.to_nat dim), repeat None (Z.to_nat dim))
  | Some l =>
      if Z.of_nat (length l) =? dim
      then inr (map fst l, map snd l)
      else inl (ValueError "bounds must have length solution_dim")
  end.

#[export] Instance base : EmitterBase := {|
  emitter_base_init := base_init
|}.

Definition empty_archive : GridArchive := {| elites := []; draws := 0 |}.

(** The emitter [__init__] builds from x0 = [0, 0], sigma0 = 1,
    batch_size = 4, no bounds and seed 7. *)
Definition built (selection_rule restart_rule : string) : ImprovementEmitter :=
  {| _rng := 8;
     _batch_size := 4;
     _x0 := [0; 0];
     _sigma0 := 1;
     _solution_dim := 2;
     lower_bounds := [None; None];
     upper_bounds := [None; None];
     _selection_rule := selection_rule;
     _restart_rule := restart_rule;
     opt := {| es_mean := [0; 0]; es_sigma := 1; es_rng := 7; es_batch := 4 |};
     _num_parents := if String.eqb selection_rule "mu" then Some 2 else None;
     _restarts := 0 |}.

Definition fresh (selection_rule restart_rule : string) (a : GridArchive)
  : State :=
  {| emitter := built selection_rule restart_rule; archive := a; trace := [] |}.

Definition batch4 : list (list Z) := [[7; 7]; [8; 8]; [9; 9]; [10; 10]].
Definition objs4 : list pyfloat := [Fnum 1; Fnum 2; Fnum 3; Fnum 4].
Definition behs4 : list Z := [0; 1; 0; 3].

End PyDemo.

(** A concrete call is settled by running it and reading the result. *)
Ltac run_tell :=
  eexists; split; [vm_compute; reflexivity | vm_compute; repeat split].

(** * Properties *)

(** ** The tuple order and the sort *)

Section Ranking.

Lemma tuple_ltb_lex (a b : RankingRecord) :
  tuple_ltb a b = true <-> tuple_lt a b.
Proof.
  unfold tuple_ltb, tuple_lt, AddStatus_eqb.
  destruct (Z.eqb_spec (AddStatus_int (rr_status a)) (AddStatus_int (rr_status b)));
    simpl.
  - destruct (Z.eqb_spec (rr_value a) (rr_value b)); simpl.
    + rewrite Nat.ltb_lt. lia.
    + rewrite Z.ltb_lt. lia.
  - rewrite Z.ltb_lt. lia.
Qed.

Lemma tuple_ltb_nlex (a b : RankingRecord) :
  tuple_ltb a b = false <-> ~ tuple_lt a b.
Proof.
  rewrite <- tuple_ltb_lex. destruct (tuple_ltb a b); split; congruence.
Qed.

Lemma AddStatus_int_inj (s t : AddStatus) :
  AddStatus_int s = AddStatus_int t -> s = t.
Proof. destruct s, t; simpl; intros; congruence || lia. Qed.

(** Two different records are ordered one way or the other. *)
Lemma tuple_lt_total (a b : RankingRecord) :
  a = b \/ tuple_lt a b \/ tuple_lt b a.
Proof.
  destruct a as [[sa va] ia], b as [[sb vb] ib].
  unfold tuple_lt, rr_status, rr_value, rr_index; simpl.
  destruct (Z.lt_total (AddStatus_int sa) (AddStatus_int sb)) as [H | [H | H]];
    [lia | | lia].
  apply AddStatus_int_inj in H. subst sb.
  destruct (Z.lt_total va vb) as [H | [H | H]]; [lia | | lia]. subst vb.
  destruct (Nat.lt_total ia ib) as [H | [H | H]]; [lia | | lia]. subst ib.
  now left.
Qed.

Lemma tuple_lt_trans (a b c : RankingRecord) :
  tuple_lt a b -> tuple_lt b c -> tuple_lt a c.
Proof. unfold tuple_lt. lia. Qed.

Lemma tuple_lt_irrefl (a : RankingRecord) : ~ tuple_lt a a.
Proof. unfold tuple_lt. lia. Qed.

(** The order of the code, read from the larger side, is the order of the
    specification. *)
Lemma tuple_lt_ranks_before (a b : RankingRecord) :
  tuple_lt b a <-> ranks_before a b.
Proof.
  destruct a as [[sa va] ia], b as [[sb vb] ib].
  unfold tuple_lt, ranks_before, rr_status, rr_value, rr_index; simpl.
  destruct sa, sb; simpl; lia.
Qed.

Lemma ranks_before_trans (a b c : RankingRecord) :
  ranks_before a b -> ranks_before b c -> ranks_before a c.
Proof.
  rewrite <- !tuple_lt_ranks_before. intros H1 H2.
  exact (tuple_lt_trans H2 H1).
Qed.

Lemma ranks_before_asym (a b : RankingRecord) :
  ranks_before a b -> ranks_before b a -> False.
Proof.
  rewrite <- !tuple_lt_ranks_before. intros H1 H2.
  exact (tuple_lt_irrefl (tuple_lt_trans H1 H2)).
Qed.

Lemma tuple_le_trans (a b c : RankingRecord) :
  tuple_le a b -> tuple_le b c -> tuple_le a c.
Proof. unfold tuple_le, tuple_lt. lia. Qed.

Lemma insort_perm (x : RankingRecord) (l : list RankingRecord) :
  Permutation (x :: l) (insort x l).
Proof.
  induction l as [| y l IH]; simpl; [reflexivity |].
  destruct (tuple_ltb x y); [reflexivity |].
  rewrite perm_swap. now constructor.
Qed.

Lemma insort_sorted (x : RankingRecord) (l : list RankingRecord) :
  StronglySorted tuple_le l -> StronglySorted tuple_le (insort x l).
Proof.
  induction 1 as [| y l Hs IH Hall]; simpl.
  - repeat constructor.
  - destruct (tuple_ltb x y) eqn:E.
    + apply tuple_ltb_lex in E.
      constructor; [now constructor |].
      constructor.
      * unfold tuple_le, tuple_lt in *. lia.
      * eapply Forall_impl; [| exact Hall]. intros z Hz.
        unfold tuple_le, tuple_lt in *. lia.
    + apply tuple_ltb_nlex in E.
      constructor; [exact IH |].
      eapply Permutation_Forall; [apply insort_perm |].
      constructor; [exact E | exact Hall].
Qed.

Lemma fold_insort_perm (l acc : list RankingRecord) :
  Permutation (acc ++ l) (fold_left (fun a x => insort x a) l acc).
Proof.
  revert acc. induction l as [| x l IH]; intros acc; simpl.
  - now rewrite app_nil_r.
  - rewrite <- IH, <- insort_perm. simpl.
    symmetry. apply Permutation_middle.
Qed.

Lemma fold_insort_sorted (l acc : list RankingRecord) :
  StronglySorted tuple_le acc ->
  StronglySorted tuple_le (fold_left (fun a x => insort x a) l acc).
Proof.
  revert acc. induction l as [| x l IH]; intros acc H; simpl; [exact H |].
  apply IH. now apply insort_sorted.
Qed.

Lemma list_sort_perm (l : list RankingRecord) : Permutation l (list_sort l).
Proof. exact (fold_insort_perm l []). Qed.

Lemma list_sort_sorted (l : list RankingRecord) :
  StronglySorted tuple_le (list_sort l).
Proof. apply fold_insort_sorted. constructor. Qed.

Lemma StronglySorted_snoc {A : Type} (R : A -> A -> Prop) (l : list A) (x : A) :
  StronglySorted R l -> Forall (fun y => R y x) l ->
  StronglySorted R (l ++ [x]).
Proof.
  induction 1 as [| y l Hs IH Hall]; intros Hx; simpl.
  - repeat constructor.
  - inversion Hx; subst. constructor; [now apply IH |].
    apply Forall_app. split; [exact Hall | now constructor].
Qed.

Lemma StronglySorted_rev {A : Type} (R : A -> A -> Prop) (l : list A) :
  StronglySorted R l -> StronglySorted (fun a b => R b a) (rev l).
Proof.
  induction 1 as [| y l Hs IH Hall]; simpl; [constructor |].
  apply StronglySorted_snoc; [exact IH |].
  apply Forall_rev. exact Hall.
Qed.

Lemma StronglySorted_strengthen {A : Type} (R S : A -> A -> Prop) (l : list A) :
  (forall a b, In a l -> In b l -> R a b -> a <> b -> S a b) ->
  NoDup l -> StronglySorted R l -> StronglySorted S l.
Proof.
  intros HRS Hnd Hs. induction Hs as [| y l Hs IH Hall]; [constructor |].
  inversion Hnd as [| ? ? Hnotin Hnd']; subst.
  constructor.
  - apply IH; [| exact Hnd'].
    intros a b Ha Hb. apply HRS; now right.
  - rewrite Forall_forall in *. intros z Hz.
    apply HRS; [now left | now right | now apply Hall |].
    intros ->. contradiction.
Qed.

Lemma sort_reverse_perm (l : list RankingRecord) :
  Permutation l (sort_reverse l).
Proof.
  unfold sort_reverse.
  rewrite <- Permutation_rev, <- list_sort_perm. apply Permutation_rev.
Qed.

(** Without repeated records the reversed sort is strictly decreasing, that
    is, increasing for [ranks_before]. *)
Lemma sort_reverse_sorted (l : list RankingRecord) :
  NoDup l -> StronglySorted ranks_before (sort_reverse l).
Proof.
  intros Hnd.
  apply StronglySorted_strengthen with (R := fun a b => tuple_le b a).
  - intros a b _ _ Hle Hne. apply tuple_lt_ranks_before.
    destruct (tuple_lt_total a b) as [H | [H | H]]; [contradiction | | exact H].
    now elim Hle.
  - eapply Permutation_NoDup; [apply sort_reverse_perm | exact Hnd].
  - unfold sort_reverse. apply StronglySorted_rev. apply list_sort_sorted.
Qed.

(** A set of records has one ranking only. *)
Lemma ranking_unique (l1 l2 : list RankingRecord) :
  Permutation l1 l2 ->
  StronglySorted ranks_before l1 -> StronglySorted ranks_before l2 ->
  l1 = l2.
Proof.
  revert l2. induction l1 as [| a l1 IH]; intros l2 Hp H1 H2.
  - apply Permutation_nil in Hp. now subst.
  - destruct l2 as [| b l2].
    + symmetry in Hp. apply Permutation_nil in Hp. discriminate.
    + inversion H1 as [| ? ? Hs1 Hall1]; subst.
      inversion H2 as [| ? ? Hs2 Hall2]; subst.
      rewrite Forall_forall in Hall1, Hall2.
      assert (a = b) as ->.
      { assert (Ha : In a (b :: l2))
          by (eapply Permutation_in; [exact Hp | now left]).
        assert (Hb : In b (a :: l1))
          by (eapply Permutation_in; [symmetry; exact Hp | now left]).
        destruct Ha as [Ha | Ha]; [now symmetry |].
        destruct Hb as [Hb | Hb]; [exact Hb |].
        exfalso. eapply ranks_before_asym; eauto. }
      f_equal. apply IH; [| exact Hs1 | exact Hs2].
      now apply Permutation_cons_inv in Hp.
Qed.

End Ranking.

(** ** The loop of [tell] *)

Section Properties.

Context `{NP : Numpy} {AR : ArchiveBase} {OP : Optimizer} {EB : EmitterBase}.

Lemma tell_loop_run (items : list (nat * (Sol * Obj * Beh * option Meta)))
  (acc : list RankingRecord) (ns : Z) (st : State) :
  tell_loop items acc ns st =
  inr ((acc ++ batch_records (archive st) items,
        ns + count_added (batch_adds (archive st) items)),
       {| emitter := emitter st;
          archive := batch_archive (archive st) items;
          trace := trace st ++ batch_adds (archive st) items |}).
Proof.
  revert acc ns st.
  induction items as [| [i [[[sol obj] beh] meta]] rest IH]; intros acc ns st.
  - unfold batch_records, batch_adds, batch_archive; simpl. unfold ret.
    rewrite !app_nil_r, Z.add_0_r. now destruct st.
  - unfold batch_records, batch_adds, batch_archive in *. cbn -[Z.add].
    unfold bind, call_archive_add, log.
    destruct (archive_add (archive st) sol obj beh meta) as [[[s v] eid] a'] eqn:Ea.
    rewrite IH. cbn -[Z.add].
    destruct (add_all a' rest) as [[evs recs] a''] eqn:Er. cbn -[Z.add].
    rewrite <- !app_assoc. cbn -[Z.add].
    assert (Hc : (if status_added s then ns + 1 else ns) + count_added evs =
                 ns + match s with
                      | NOT_ADDED => count_added evs
                      | _ => 1 + count_added evs
                      end)
      by (destruct s; unfold status_added; cbn -[Z.add]; lia).
    rewrite Hc. reflexivity.
Qed.

Lemma add_all_length (a : Archive) items :
  length (batch_adds a items) = length items /\
  length (batch_records a items) = length items.
Proof.
  unfold batch_adds, batch_records. revert a.
  induction items as [| [i [[[sol obj] beh] meta]] rest IH]; intros a; simpl;
    [now split |].
  destruct (archive_add a sol obj beh meta) as [r a'].
  specialize (IH a'). destruct (add_all a' rest) as [[evs recs] a''].
  simpl in *. lia.
Qed.

Lemma add_all_is_add (a : Archive) items :
  forallb is_add (batch_adds a items) = true.
Proof.
  unfold batch_adds. revert a.
  induction items as [| [i [[[sol obj] beh] meta]] rest IH]; intros a; simpl;
    [reflexivity |].
  destruct (archive_add a sol obj beh meta) as [r a'].
  specialize (IH a'). destruct (add_all a' rest) as [[evs recs] a''].
  exact IH.
Qed.

Lemma add_all_args (a : Archive) items :
  add_args (batch_adds a items) = map snd items.
Proof.
  unfold batch_adds. revert a.
  induction items as [| [i [[[sol obj] beh] meta]] rest IH]; intros a; simpl;
    [reflexivity |].
  destruct (archive_add a sol obj beh meta) as [r a'].
  specialize (IH a'). destruct (add_all a' rest) as [[evs recs] a''].
  simpl in *. now rewrite IH.
Qed.

Lemma add_all_index (a : Archive) items :
  map rr_index (batch_records a items) = map fst items.
Proof.
  unfold batch_records. revert a.
  induction items as [| [i [[[sol obj] beh] meta]] rest IH]; intros a; simpl;
    [reflexivity |].
  destruct (archive_add a sol obj beh meta) as [r a'].
  specialize (IH a'). destruct (add_all a' rest) as [[evs recs] a''].
  simpl in *. now rewrite IH.
Qed.

(** The records are the outcomes of the insertions, numbered in call order. *)
Lemma add_all_records (a : Archive) (k : nat)
  (xs : list (Sol * Obj * Beh * option Meta)) :
  batch_records a (enumerate_from k xs) =
  map (fun p => (fst (snd p), snd (snd p), fst p))
      (enumerate_from k (add_results (batch_adds a (enumerate_from k xs)))).
Proof.
  unfold batch_records, batch_adds. revert a k.
  induction xs as [| [[[sol obj] beh] meta] xs IH]; intros a k; simpl;
    [reflexivity |].
  destruct (archive_add a sol obj beh meta) as [r a'].
  specialize (IH a' (S k)).
  destruct (add_all a' (enumerate_from (S k) xs)) as [[evs recs] a''].
  simpl in *. now rewrite IH.
Qed.

Lemma enumerate_from_fst {A : Type} (k : nat) (l : list A) :
  map fst (enumerate_from k l) = seq k (length l).
Proof.
  revert k. induction l as [| x l IH]; intros k; simpl; [reflexivity |].
  now rewrite IH.
Qed.

Lemma enumerate_from_snd {A : Type} (k : nat) (l : list A) :
  map snd (enumerate_from k l) = l.
Proof.
  revert k. induction l as [| x l IH]; intros k; simpl; [reflexivity |].
  now rewrite IH.
Qed.

Lemma enumerate_from_length {A : Type} (k : nat) (l : list A) :
  length (enumerate_from k l) = length l.
Proof. now rewrite <- (length_map fst), enumerate_from_fst, length_seq. Qed.

(** [zip] stops at the shortest of its arguments. *)
Lemma zip4_length_finite {A B C D : Type} (s : list A) (o : list B)
  (b : list C) (m : list D) :
  length (zip4 s o b (finite m)) =
  Nat.min (Nat.min (length s) (length o)) (Nat.min (length b) (length m)).
Proof.
  revert o b m. induction s as [| x s IH]; intros o b m; simpl; [reflexivity |].
  destruct o as [| y o]; simpl; [reflexivity |].
  destruct b as [| z b]; simpl; [lia |].
  destruct m as [| w m]; simpl; [lia |].
  rewrite IH. lia.
Qed.

Lemma zip4_length_repeat {A B C D : Type} (s : list A) (o : list B)
  (b : list C) (w : D) :
  length (zip4 s o b (itertools_repeat w)) =
  Nat.min (Nat.min (length s) (length o)) (length b).
Proof.
  revert o b. induction s as [| x s IH]; intros o b; simpl; [reflexivity |].
  destruct o as [| y o]; simpl; [reflexivity |].
  destruct b as [| z b]; simpl; [lia |].
  rewrite IH. lia.
Qed.

Lemma zip4_length_le {A B C D : Type} (s : list A) (o : list B)
  (b : list C) (m : iterable D) :
  (length (zip4 s o b m) <= length s)%nat.
Proof.
  destruct m; [rewrite zip4_length_finite | rewrite zip4_length_repeat]; lia.
Qed.

(** An unbounded [repeat] pairs like a finite sequence that is long enough. *)
Lemma zip4_repeat_finite {A B C D : Type} (s : list A) (o : list B)
  (b : list C) (w : D) (n : nat) :
  (Nat.min (Nat.min (length s) (length o)) (length b) <= n)%nat ->
  zip4 s o b (itertools_repeat w) = zip4 s o b (finite (repeat w n)).
Proof.
  revert o b n. induction s as [| x s IH]; intros o b n Hn; simpl;
    [reflexivity |].
  destruct o as [| y o]; [reflexivity |].
  destruct b as [| z b]; [reflexivity |].
  destruct n as [| n]; simpl in *; [lia |].
  f_equal. apply IH. lia.
Qed.

Lemma getitem_inr {A E : Type} (err : E) (l : list A) (indices : list nat) :
  Forall (fun i => (i < length l)%nat) indices ->
  exists xs, getitem err l indices = inr xs /\
             map Some xs = map (nth_error l) indices.
Proof.
  induction 1 as [| i rest Hi Hrest [xs [IH1 IH2]]]; simpl.
  - now exists [].
  - destruct (nth_error l i) as [x |] eqn:Hnth.
    + rewrite IH1. exists (x :: xs). simpl. now rewrite IH2.
    + apply nth_error_None in Hnth. lia.
Qed.

Lemma ranking_indices_in_range (a : Archive) (sols : list Sol)
  (objs : list Obj) (behs : list Beh) (meta : option (list (option Meta))) :
  Forall (fun i => (i < length sols)%nat)
    (map rr_index
       (sort_reverse (batch_records a (batch_items sols objs behs meta)))).
Proof.
  eapply Permutation_Forall.
  - apply Permutation_map. apply sort_reverse_perm.
  - rewrite add_all_index. unfold batch_items, enumerate.
    rewrite enumerate_from_fst. apply Forall_forall. intros i Hi.
    apply in_seq in Hi.
    pose proof (zip4_length_le sols objs behs
                  (match meta with
                   | None => itertools_repeat None
                   | Some m => finite m
                   end)).
    lia.
Qed.

Lemma batch_records_NoDup (a : Archive) (sols : list Sol)
  (objs : list Obj) (behs : list Beh) (meta : option (list (option Meta))) :
  NoDup (batch_records a (batch_items sols objs behs meta)).
Proof.
  apply (NoDup_map_inv rr_index). rewrite add_all_index.
  unfold batch_items, enumerate. rewrite enumerate_from_fst. apply seq_NoDup.
Qed.

(** ** One [tell] call, in full *)

Lemma tell_run (st : State) (sols : list Sol) (objs : list Obj)
  (behs : list Beh) (jac : option Jac) (meta : option (list (option Meta))) :
  let items := batch_items sols objs behs meta in
  let adds := batch_adds (archive st) items in
  let ranking := sort_reverse (batch_records (archive st) items) in
  let a1 := batch_archive (archive st) items in
  let ns := count_added adds in
  let np := if String.eqb (_selection_rule (emitter st)) "filter"
            then Some ns else _num_parents (emitter st) in
  let values := map rr_value ranking in
  exists ranked,
    map Some ranked = map (nth_error sols) (map rr_index ranking) /\
    let o1 := opt_tell (opt (emitter st)) ranked np in
    let stop := opt_check_stop o1 values in
    let fires := stop || _check_restart (emitter st) ns in
    let elite := fst (fst (archive_get_random_elite a1)) in
    tell sols objs behs jac meta st =
    inr (tt,
         {| emitter :=
              (if fires
               then set_restarts (set_opt (emitter st) (opt_reset o1 elite))
                                 (_restarts (emitter st) + 1)
               else set_opt (emitter st) o1);
            archive := (if fires then snd (archive_get_random_elite a1) else a1);
            trace := trace st ++ adds
                     ++ [EvOptTell ranked np; EvCheckStop values stop]
                     ++ restart_events fires elite |}).
Proof.
  intros items adds ranking a1 ns np values.
  destruct (@getitem_inr _ _ (IndexError (OptExn := OptExn)) _ _
              (ranking_indices_in_range (archive st) sols objs behs meta))
    as [ranked [Hget Hmap]].
  exists ranked. split; [exact Hmap |].
  intros o1 stop fires elite.
  unfold tell, bind. fold (batch_items sols objs behs meta).
  rewrite tell_loop_run. cbn -[Z.add sort_reverse].
  unfold lift, get_self. cbn -[Z.add sort_reverse].
  rewrite Hget. cbn -[Z.add sort_reverse].
  rewrite !Z.add_0_l.
  fold items. fold adds. fold ranking. fold a1. fold ns. fold np. fold o1.
  fold values. fold stop. fold fires.
  unfold restart_events.
  destruct fires; cbn -[Z.add sort_reverse].
  - unfold call_get_random_elite, bind. cbn -[Z.add sort_reverse].
    subst elite.
    destruct (archive_get_random_elite a1) as [[e rest] a2] eqn:Ee.
    cbn -[Z.add sort_reverse].
    unfold incr_restarts, set_restarts, set_opt, log. cbn -[Z.add sort_reverse].
    rewrite <- !app_assoc. reflexivity.
  - unfold ret, set_opt, log. cbn -[Z.add sort_reverse].
    rewrite <- !app_assoc. reflexivity.
Qed.

Lemma records_of_batch (a : Archive) (sols : list Sol) (objs : list Obj)
  (behs : list Beh) (meta : option (list (option Meta))) :
  records_of (batch_adds a (batch_items sols objs behs meta)) =
  batch_records a (batch_items sols objs behs meta).
Proof.
  unfold records_of, batch_items, enumerate. now rewrite add_all_records.
Qed.

Lemma batch_items_length (sols : list Sol) (objs : list Obj)
  (behs : list Beh) (meta : option (list (option Meta))) (n : nat) :
  length sols = n -> length objs = n -> length behs = n ->
  (forall m, meta = Some m -> length m = n) ->
  length (batch_items sols objs behs meta) = n.
Proof.
  intros Hs Ho Hb Hm. unfold batch_items, enumerate.
  rewrite enumerate_from_length.
  destruct meta as [m |].
  - rewrite zip4_length_finite, (Hm m eq_refl). lia.
  - rewrite zip4_length_repeat. lia.
Qed.

Lemma tell_calls_adds (evs : list Event) :
  forallb is_add evs = true -> tell_calls evs = [].
Proof.
  induction evs as [| ev evs IH]; simpl; [reflexivity |].
  destruct ev; simpl; intros H; try discriminate. now apply IH.
Qed.

Lemma tell_calls_restart (fires : bool) (elite : Sol) :
  tell_calls (restart_events fires elite) = [].
Proof. now destruct fires. Qed.

(** ** Ranking *)


(** ** Construction and the reachable states *)

Lemma str_in_2 (x a b : string) :
  str_in x [a; b] = true <-> x = a \/ x = b.
Proof.
  unfold str_in; simpl. rewrite !orb_true_iff, !String.eqb_eq.
  intuition discriminate.
Qed.

Lemma init_valid (a : Archive) (x0 : Sol) (sigma0 : Sigma)
  (sel res w : string) (bounds : Bounds) (bs seed : option Z)
  (os : Entropy * Entropy) (e0 : ImprovementEmitter) :
  __init__ a x0 sigma0 sel res w bounds bs seed os = inr e0 ->
  valid_config e0 /\ _selection_rule e0 = sel /\ _restart_rule e0 = res /\
  _restarts e0 = 0 /\ _batch_size e0 = opt_batch_size (opt e0).
Proof.
  unfold __init__.
  destruct (process_bounds bounds (np_len (np_array x0 (archive_dtype a))))
    as [lower upper].
  destruct (str_in sel ["mu"; "filter"]) eqn:Hsel; cbn [negb];
    [| intros H; discriminate H].
  destruct (str_in res ["basic"; "no_improvement"]) eqn:Hres; cbn [negb];
    [| intros H; discriminate H].
  apply str_in_2 in Hsel. apply str_in_2 in Hres.
  destruct (match seed with
            | Some _ =>
                let '(k, rng') := rng_integers (default_rng seed (fst os)) 10000 in
                (Some k, rng')
            | None => (None, default_rng seed (fst os))
            end) as [opt_seed rng].
  destruct (CMAEvolutionStrategy sigma0 bs _ w _ _) as [err | o];
    [intros H; discriminate H |].
  intros H. injection H as <-. unfold valid_config; simpl.
  repeat split; try reflexivity; try tauto.
  destruct Hsel as [-> | ->]; simpl; [right | left]; now split.
Qed.

Lemma same_config_refl (e : ImprovementEmitter) : same_config e e.
Proof. unfold same_config. tauto. Qed.

Lemma same_config_trans (e1 e2 e3 : ImprovementEmitter) :
  same_config e1 e2 -> same_config e2 e3 -> same_config e1 e3.
Proof. unfold same_config. intuition congruence. Qed.

Lemma ask_config (g : bool) (st st' : State) (batch : list Sol) :
  ask g st = inr (batch, st') -> same_config (emitter st) (emitter st').
Proof.
  unfold ask, bind, get_self, call_opt_ask. simpl.
  destruct (opt_ask _ _ _) as [b o]. intros H. injection H as _ <-.
  unfold same_config. simpl. tauto.
Qed.

Lemma tell_config (st st' : State) (sols : list Sol) (objs : list Obj)
  (behs : list Beh) (jac : option Jac) (meta : option (list (option Meta)))
  (r : unit) :
  tell sols objs behs jac meta st = inr (r, st') ->
  same_config (emitter st) (emitter st').
Proof.
  destruct (tell_run st sols objs behs jac meta) as [ranked [_ Htell]].
  cbv zeta in Htell. rewrite Htell. intros H. injection H as _ <-.
  unfold same_config. destruct (_ || _); simpl; tauto.
Qed.

(** The configuration of a reachable emitter is the one it was built with. *)
Lemma reachable_config (e0 : ImprovementEmitter) (st : State) :
  reachable e0 st -> same_config e0 (emitter st).
Proof.
  induction 1 as [| st g batch st' _ IH Hask
                  | st sols objs behs jac meta r st' _ IH Htell
                  | st a _ IH]; simpl.
  - apply same_config_refl.
  - eapply same_config_trans; [exact IH | eapply ask_config; eauto].
  - eapply same_config_trans; [exact IH | eapply tell_config; eauto].
  - exact IH.
Qed.

Lemma reachable_valid (e0 : ImprovementEmitter) (st : State) :
  reachable e0 st -> valid_config e0 /\ valid_config (emitter st).
Proof.
  intros H. pose proof (reachable_config H) as Hc.
  assert (H0 : valid_config e0).
  { clear Hc. induction H; auto. eapply init_valid; eauto. }
  split; [exact H0 |].
  unfold same_config in Hc. unfold valid_config in *.
  destruct Hc as (_ & Hb & _ & _ & _ & _ & _ & Hsel & Hres & Hnp).
  rewrite Hsel, Hres, Hnp, Hb. exact H0.
Qed.

(** ** Parent selection *)

Lemma count_added_bounds (evs : list Event) :
  0 <= count_added evs <= Z.of_nat (length evs).
Proof.
  induction evs as [| ev evs IH]; [simpl; lia |].
  change (length (ev :: evs)) with (S (length evs)).
  destruct ev as [sol obj beh meta [| |] v | | | | |]; cbn -[Z.add Z.of_nat]; lia.
Qed.

(** C2.  In every [tell] call of an emitter built by [__init__], the one
    call to [Optimizer.tell] receives, under the "filter" rule, the number
    of insertions of that call whose status is NEW or IMPROVE_EXISTING, and
    under the "mu" rule the parent count that [__init__] stored, which is
    batch_size // 2. *)
Theorem tell_num_parents (e0 : ImprovementEmitter) (st : State)
  (sols : list Sol) (objs : list Obj) (behs : list Beh) (jac : option Jac)
  (meta : option (list (option Meta))) :
  reachable e0 st ->
  exists st' adds ranked np rest,
    tell sols objs behs jac meta st = inr (tt, st') /\
    trace st' = trace st ++ adds ++ EvOptTell ranked np :: rest /\
    forallb is_add adds = true /\
    tell_calls rest = [] /\
    ((_selection_rule e0 = "filter" /\ np = Some (count_added adds)) \/
     (_selection_rule e0 = "mu" /\ np = Some (batch_size e0 / 2) /\
      _num_parents e0 = np /\ batch_size (emitter st) = batch_size e0)).
Proof.
  intros Hr.
  destruct (reachable_valid Hr) as [[Hv0 _] _].
  pose proof (reachable_config Hr) as Hc. unfold same_config in Hc.
  destruct Hc as (_ & Hb & _ & _ & _ & _ & _ & Hsel & _ & Hnp).
  destruct (tell_run st sols objs behs jac meta) as [ranked [_ Htell]].
  cbv zeta in Htell.
  eexists _, _, ranked, _, _.
  split; [exact Htell |].
  split; [reflexivity |].
  split; [apply add_all_is_add |].
  split; [apply tell_calls_restart |].
  rewrite Hsel, Hnp.
  destruct Hv0 as [[-> ->] | [-> ->]]; simpl; [left | right]; auto.
Qed.

(** C10.  When the inputs of a [tell] call all have length [batch_size],
    the parent count given to [Optimizer.tell] is an integer between 0 and
    [batch_size]: the count of added solutions among the [batch_size]
    insertions under "filter", batch_size // 2 under "mu". *)
Theorem tell_num_parents_bounds (e0 : ImprovementEmitter) (st : State)
  (sols : list Sol) (objs : list Obj) (behs : list Beh) (jac : option Jac)
  (meta : option (list (option Meta))) :
  reachable e0 st ->
  Z.of_nat (length sols) = batch_size (emitter st) ->
  Z.of_nat (length objs) = batch_size (emitter st) ->
  Z.of_nat (length behs) = batch_size (emitter st) ->
  (forall m, meta = Some m -> Z.of_nat (length m) = batch_size (emitter st)) ->
  exists st' adds ranked k rest,
    tell sols objs behs jac meta st = inr (tt, st') /\
    trace st' = trace st ++ adds ++ EvOptTell ranked (Some k) :: rest /\
    forallb is_add adds = true /\
    Z.of_nat (length adds) = batch_size (emitter st) /\
    0 <= k <= batch_size (emitter st) /\
    ((_selection_rule (emitter st) = "filter" /\ k = count_added adds) \/
     (_selection_rule (emitter st) = "mu" /\ k = batch_size (emitter st) / 2)).
Proof.
  intros Hr Hs Ho Hb Hm.
  destruct (reachable_valid Hr) as [_ [Hv _]].
  destruct (tell_run st sols objs behs jac meta) as [ranked [_ Htell]].
  cbv zeta in Htell.
  set (items := batch_items sols objs behs meta) in *.
  assert (Hlen : length items = length sols).
  { apply batch_items_length; try lia.
    intros m Em. specialize (Hm m Em). lia. }
  pose proof (count_added_bounds (batch_adds (archive st) items)) as Hcnt.
  rewrite (proj1 (add_all_length (archive st) items)) in Hcnt.
  unfold batch_size in *.
  destruct Hv as [[Hsel Hnp] | [Hsel Hnp]]; rewrite Hsel, ?Hnp in Htell;
    simpl in Htell.
  - eexists _, _, ranked, _, _.
    split; [exact Htell |].
    split; [reflexivity |].
    split; [apply add_all_is_add |].
    split; [rewrite (proj1 (add_all_length (archive st) items)); lia |].
    split; [lia |]. left. now split.
  - eexists _, _, ranked, _, _.
    split; [exact Htell |].
    split; [reflexivity |].
    split; [apply add_all_is_add |].
    split; [rewrite (proj1 (add_all_length (archive st) items)); lia |].
    split; [| right; now split].
    assert (0 <= _batch_size (emitter st)) by lia.
    split; [apply Z.div_pos; lia |].
    apply Z.div_le_upper_bound; lia.
Qed.

(** ** Restarts *)

Lemma replay_archive_adds (a : Archive)
  (items : list (nat * (Sol * Obj * Beh * option Meta))) :
  replay_archive a (batch_adds a items) = batch_archive a items.
Proof.
  unfold batch_adds, batch_archive. revert a.
  induction items as [| [i [[[sol obj] beh] meta]] rest IH]; intros a;
    simpl; [reflexivity |].
  specialize (IH (snd (archive_add a sol obj beh meta))).
  destruct (archive_add a sol obj beh meta) as [r a'] eqn:Ea.
  simpl in IH. destruct (add_all a' rest) as [[evs recs] a''].
  simpl in *. rewrite Ea. exact IH.
Qed.

Lemma replay_archive_app (a : Archive) (evs1 evs2 : list Event) :
  replay_archive a (evs1 ++ evs2) = replay_archive (replay_archive a evs1) evs2.
Proof.
  revert a. induction evs1 as [| ev evs1 IH]; intros a; [reflexivity |].
  destruct ev; simpl; apply IH.
Qed.

Lemma replay_opt_adds (lower upper : BoundArr) (o : Opt) (evs : list Event) :
  forallb is_add evs = true -> replay_opt lower upper o evs = o.
Proof.
  induction evs as [| ev evs IH]; [reflexivity |].
  destruct ev; simpl; intros H; try discriminate. now apply IH.
Qed.

Lemma replay_opt_app (lower upper : BoundArr) (o : Opt) (evs1 evs2 : list Event) :
  replay_opt lower upper o (evs1 ++ evs2) =
  replay_opt lower upper (replay_opt lower upper o evs1) evs2.
Proof.
  revert o. induction evs1 as [| ev evs1 IH]; intros o; [reflexivity |].
  destruct ev; simpl; apply IH.
Qed.

(** C3.  A [tell] call ends with at most one restart, made of one draw from
    [Archive.get_random_elite] and one [Optimizer.reset] with the drawn
    solution, and the restart counter grows by one exactly when it happens.
    Under "no_improvement" a call without any NEW or IMPROVE_EXISTING
    insertion restarts; under "basic" the call restarts exactly when
    [Optimizer.check_stop] answered true; when [check_stop] answered false
    and the emitter's own rule does not fire, nothing is reset and the
    counter keeps its value. *)
Theorem tell_restart (st : State) (sols : list Sol) (objs : list Obj)
  (behs : list Beh) (jac : option Jac) (meta : option (list (option Meta))) :
  exists st' adds ranked np values stop fires elite,
    tell sols objs behs jac meta st = inr (tt, st') /\
    trace st' = trace st ++ adds
                ++ [EvOptTell ranked np; EvCheckStop values stop]
                ++ restart_events fires elite /\
    forallb is_add adds = true /\
    stop = opt_check_stop (opt_tell (opt (emitter st)) ranked np) values /\
    count_resets (restart_events fires elite) = (if fires then 1 else 0) /\
    count_resets (restart_events fires elite) <= 1 /\
    _restarts (emitter st') =
      _restarts (emitter st) + count_resets (restart_events fires elite) /\
    (fires = true ->
     elite = fst (fst (archive_get_random_elite
                         (replay_archive (archive st) adds))) /\
     opt (emitter st') =
       opt_reset (opt_tell (opt (emitter st)) ranked np) elite) /\
    (_restart_rule (emitter st) = "no_improvement" ->
     count_added adds = 0 -> fires = true) /\
    (_restart_rule (emitter st) = "basic" -> fires = stop) /\
    (stop = false ->
     _restart_rule (emitter st) <> "no_improvement" \/ count_added adds <> 0 ->
     fires = false).
Proof.
  destruct (tell_run st sols objs behs jac meta) as [ranked [_ Htell]].
  cbv zeta in Htell.
  set (items := batch_items sols objs behs meta) in *.
  set (adds := batch_adds (archive st) items) in *.
  eexists _, adds, ranked, _, _, _, _, _.
  split; [exact Htell |].
  split; [reflexivity |].
  split; [apply add_all_is_add |].
  split; [reflexivity |].
  assert (Hrep : replay_archive (archive st) adds = batch_archive (archive st) items)
    by apply replay_archive_adds.
  unfold _check_restart.
  destruct (String.eqb_spec (_restart_rule (emitter st)) "no_improvement")
    as [Hrule | Hrule].
  - destruct (opt_check_stop _ _) eqn:Hstop;
      destruct (Z.eqb_spec (count_added adds) 0) as [Hz | Hz];
      cbn -[Z.add]; rewrite ?Hrep;
      repeat split; intros; try reflexivity; try lia; try congruence;
      try (rewrite Hrule in *; discriminate); tauto.
  - destruct (opt_check_stop _ _) eqn:Hstop;
      cbn -[Z.add]; rewrite ?Hrep;
      repeat split; intros; try reflexivity; try lia; try congruence;
      tauto.
Qed.

(** C4, as the code has it.  The values given to [Optimizer.check_stop]
    are the improvement values in ranking order: the k-th value belongs to
    the k-th solution forwarded to [Optimizer.tell]. *)
Theorem check_stop_values_ranked (st : State) (sols : list Sol)
  (objs : list Obj) (behs : list Beh) (jac : option Jac)
  (meta : option (list (option Meta))) :
  exists st' adds ranking ranked np stop post,
    tell sols objs behs jac meta st = inr (tt, st') /\
    trace st' = trace st ++ adds
                ++ [EvOptTell ranked np; EvCheckStop (map rr_value ranking) stop]
                ++ post /\
    forallb is_add adds = true /\
    check_stop_calls post = [] /\
    Permutation (records_of adds) ranking /\
    StronglySorted ranks_before ranking /\
    map Some ranked = map (nth_error sols) (map rr_index ranking).
Proof.
  destruct (tell_run st sols objs behs jac meta) as [ranked [Hmap Htell]].
  cbv zeta in Htell.
  eexists _, _, _, ranked, _, _, _.
  split; [exact Htell |].
  split; [reflexivity |].
  split; [apply add_all_is_add |].
  split; [now destruct (_ || _) |].
  rewrite records_of_batch.
  split; [apply sort_reverse_perm |].
  split; [apply sort_reverse_sorted, batch_records_NoDup | exact Hmap].
Qed.

(** ** Lengths and metadata *)

Lemma zip4_proj {A B C D : Type} (s : list A) (o : list B) (b : list C)
  (m : iterable D) :
  map (fun x => fst (fst (fst x))) (zip4 s o b m) =
    firstn (length (zip4 s o b m)) s /\
  map (fun x => snd (fst (fst x))) (zip4 s o b m) =
    firstn (length (zip4 s o b m)) o /\
  map (fun x => snd (fst x)) (zip4 s o b m) =
    firstn (length (zip4 s o b m)) b.
Proof.
  revert o b m. induction s as [| x s IH]; intros o b m; [now simpl |].
  destruct o as [| y o]; [now simpl |].
  destruct b as [| z b]; [now simpl |].
  destruct m as [[| w m] | w]; [now simpl | |].
  - destruct (IH o b (finite m)) as (H1 & H2 & H3). simpl.
    now rewrite H1, H2, H3.
  - destruct (IH o b (itertools_repeat w)) as (H1 & H2 & H3). simpl.
    now rewrite H1, H2, H3.
Qed.

Lemma zip4_repeat_meta {A B C D : Type} (s : list A) (o : list B)
  (b : list C) (w : D) :
  Forall (fun x => snd x = w) (zip4 s o b (itertools_repeat w)).
Proof.
  revert o b. induction s as [| x s IH]; intros o b; [constructor |].
  destruct o as [| y o]; [constructor |].
  destruct b as [| z b]; [constructor |].
  simpl. constructor; [reflexivity | apply IH].
Qed.

(** The trace of a [tell] call starts with the insertions of its items. *)
Lemma tell_trace_adds (st : State) (sols : list Sol) (objs : list Obj)
  (behs : list Beh) (jac : option Jac) (meta : option (list (option Meta))) :
  exists st' ranked np rest,
    tell sols objs behs jac meta st = inr (tt, st') /\
    trace st' = trace st
                ++ batch_adds (archive st) (batch_items sols objs behs meta)
                ++ EvOptTell ranked np :: rest /\
    add_args rest = [] /\
    length ranked = length (batch_items sols objs behs meta).
Proof.
  destruct (tell_run st sols objs behs jac meta) as [ranked [Hmap Htell]].
  cbv zeta in Htell.
  eexists _, ranked, _, _.
  split; [exact Htell |].
  split; [reflexivity |].
  split; [now destruct (_ || _) |].
  apply (f_equal (@length _)) in Hmap. rewrite !length_map in Hmap.
  rewrite Hmap, <- (Permutation_length (sort_reverse_perm _)).
  apply add_all_length.
Qed.

Lemma batch_items_zip_length (sols : list Sol) (objs : list Obj)
  (behs : list Beh) (meta : option (list (option Meta))) :
  length (batch_items sols objs behs meta) =
  match meta with
  | None => Nat.min (Nat.min (length sols) (length objs)) (length behs)
  | Some m => Nat.min (Nat.min (length sols) (length objs))
                      (Nat.min (length behs) (length m))
  end.
Proof.
  unfold batch_items, enumerate. rewrite enumerate_from_length.
  destruct meta as [m |];
    [apply zip4_length_finite | apply zip4_length_repeat].
Qed.


(** C8.  With metadata omitted, a [tell] call whose other inputs have
    length [batch_size] inserts every solution of the batch, each with the
    "no metadata" marker, and does exactly what the call with an explicit
    sequence of [batch_size] markers does. *)
Theorem tell_metadata_omitted (st : State) (sols : list Sol)
  (objs : list Obj) (behs : list Beh) (jac : option Jac) :
  Z.of_nat (length sols) = batch_size (emitter st) ->
  Z.of_nat (length objs) = batch_size (emitter st) ->
  Z.of_nat (length behs) = batch_size (emitter st) ->
  tell sols objs behs jac None st =
    tell sols objs behs jac
      (Some (repeat None (Z.to_nat (batch_size (emitter st))))) st /\
  exists st' adds ranked np rest,
    tell sols objs behs jac None st = inr (tt, st') /\
    trace st' = trace st ++ adds ++ EvOptTell ranked np :: rest /\
    forallb is_add adds = true /\
    add_args rest = [] /\
    Z.of_nat (length adds) = batch_size (emitter st) /\
    map (fun x => fst (fst (fst x))) (add_args adds) = sols /\
    Forall (fun x => snd x = None) (add_args adds).
Proof.
  intros Hs Ho Hb. split.
  - unfold tell.
    rewrite (@zip4_repeat_finite _ _ _ _ sols objs behs None
               (Z.to_nat (batch_size (emitter st)))) by lia.
    reflexivity.
  - destruct (tell_trace_adds st sols objs behs jac None)
      as (st' & ranked & np & rest & Htell & Htr & Hrest & _).
    pose proof (batch_items_zip_length sols objs behs None) as Hn.
    cbv iota in Hn.
    set (items := batch_items sols objs behs None) in *.
    exists st', (batch_adds (archive st) items), ranked, np, rest.
    split; [exact Htell |].
    split; [exact Htr |].
    split; [apply add_all_is_add |].
    split; [exact Hrest |].
    split; [rewrite (proj1 (add_all_length (archive st) items)); lia |].
    rewrite add_all_args. unfold items, batch_items, enumerate in *.
    rewrite enumerate_from_length in Hn. rewrite enumerate_from_snd.
    split; [| apply zip4_repeat_meta].
    rewrite (proj1 (zip4_proj sols objs behs (itertools_repeat None))), Hn.
    apply firstn_all2. lia.
Qed.

(** ** Frame *)

Lemma count_resets_adds (evs : list Event) :
  forallb is_add evs = true -> count_resets evs = 0.
Proof.
  induction evs as [| ev evs IH]; [reflexivity |].
  destruct ev; simpl; intros H; try discriminate. now apply IH.
Qed.

Lemma count_resets_app (evs1 evs2 : list Event) :
  count_resets (evs1 ++ evs2) = count_resets evs1 + count_resets evs2.
Proof.
  induction evs1 as [| ev evs1 IH]; [reflexivity |].
  destruct ev; cbn -[Z.add]; rewrite ?IH; lia.
Qed.

Lemma forallb_add_tell_event (evs : list Event) :
  forallb is_add evs = true -> forallb is_tell_event evs = true.
Proof.
  induction evs as [| ev evs IH]; [reflexivity |].
  destruct ev; simpl; intros H; try discriminate. now apply IH.
Qed.

(** C9, as the code has it.  A [tell] call returns no value and its effects
    are those of the calls in its trace and nothing more: the archive is
    changed by the [add] and [get_random_elite] calls, the optimizer by the
    [tell] and [reset] calls, the restart counter grows by the number of
    resets; the emitter's own generator, its x0, sigma0, batch size, bounds,
    rules and stored parent count keep their values. *)
Theorem tell_frame (st : State) (sols : list Sol) (objs : list Obj)
  (behs : list Beh) (jac : option Jac) (meta : option (list (option Meta))) :
  exists st' new,
    tell sols objs behs jac meta st = inr (tt, st') /\
    trace st' = trace st ++ new /\
    forallb is_tell_event new = true /\
    archive st' = replay_archive (archive st) new /\
    opt (emitter st') =
      replay_opt (lower_bounds (emitter st)) (upper_bounds (emitter st))
                 (opt (emitter st)) new /\
    _restarts (emitter st') = _restarts (emitter st) + count_resets new /\
    _rng (emitter st') = _rng (emitter st) /\
    x0 (emitter st') = x0 (emitter st) /\
    sigma0 (emitter st') = sigma0 (emitter st) /\
    batch_size (emitter st') = batch_size (emitter st) /\
    _selection_rule (emitter st') = _selection_rule (emitter st) /\
    _restart_rule (emitter st') = _restart_rule (emitter st) /\
    _num_parents (emitter st') = _num_parents (emitter st) /\
    same_config (emitter st) (emitter st').
Proof.
  destruct (tell_run st sols objs behs jac meta) as [ranked [_ Htell]].
  cbv zeta in Htell.
  set (items := batch_items sols objs behs meta) in *.
  pose proof (add_all_is_add (archive st) items) as Hadd.
  pose proof (replay_archive_adds (archive st) items) as Hrep.
  set (adds := batch_adds (archive st) items) in *.
  eexists _, _.
  split; [exact Htell |].
  split; [reflexivity |].
  split.
  { rewrite forallb_app, (forallb_add_tell_event _ Hadd).
    now destruct (_ || _). }
  split.
  { rewrite replay_archive_app, Hrep. now destruct (_ || _). }
  split.
  { rewrite replay_opt_app, (replay_opt_adds _ _ _ _ Hadd).
    now destruct (_ || _). }
  split.
  { rewrite count_resets_app, (count_resets_adds _ Hadd).
    destruct (_ || _); cbn -[Z.add]; lia. }
  unfold same_config, x0, sigma0, batch_size.
  destruct (_ || _); simpl; tauto.
Qed.

(** ** Construction *)


(** ** Seeds *)

(** C5, as the code has it.  With an integer seed, construction does not
    use the operating system's entropy: the emitter's generator is seeded
    from the seed and the optimizer's from a number drawn from the
    emitter's generator.  Two emitters built from the same integer seed and
    configuration, on the same archive and with the same evaluations, give
    the same batches, the same calls (restarts among them) and the same
    final state over any number of ask/tell cycles; the emitter keeps the
    generator as it is after one draw below 10000, and that draw seeds the
    optimizer. *)
Theorem seeded_experiment_deterministic (a : Archive) (x0 : Sol)
  (sigma0 : Sigma) (sel res w : string) (bounds : Bounds) (bs : option Z)
  (s : Z) (os1 os2 : Entropy * Entropy) (n : nat)
  (evaluate : list Sol -> list Obj * list Beh * option (list (option Meta))) :
  __init__ a x0 sigma0 sel res w bounds bs (Some s) os1 =
  __init__ a x0 sigma0 sel res w bounds bs (Some s) os2 /\
  experiment a x0 sigma0 sel res w bounds bs (Some s) os1 n evaluate =
  experiment a x0 sigma0 sel res w bounds bs (Some s) os2 n evaluate /\
  (forall e0,
     __init__ a x0 sigma0 sel res w bounds bs (Some s) os1 = inr e0 ->
     _rng e0 = snd (rng_integers (rng_of_seed s) 10000) /\
     exists o,
       CMAEvolutionStrategy sigma0 bs (np_len (np_array x0 (archive_dtype a)))
         w (rng_of_seed (fst (rng_integers (rng_of_seed s) 10000)))
         (archive_dtype a) = inr o /\
       opt e0 = opt_reset o (np_array x0 (archive_dtype a))).
Proof.
  assert (Hinit : __init__ a x0 sigma0 sel res w bounds bs (Some s) os1 =
                  __init__ a x0 sigma0 sel res w bounds bs (Some s) os2).
  { unfold __init__, default_rng.
    destruct (process_bounds bounds _) as [lower upper].
    destruct (rng_integers (rng_of_seed s) 10000) as [k rng'].
    reflexivity. }
  split; [exact Hinit |].
  split; [unfold experiment; now rewrite Hinit |].
  intros e0. unfold __init__, default_rng.
  destruct (process_bounds bounds _) as [lower upper].
  destruct (negb (str_in sel ["mu"; "filter"])); [intros H; discriminate H |].
  destruct (negb (str_in res ["basic"; "no_improvement"]));
    [intros H; discriminate H |].
  destruct (rng_integers (rng_of_seed s) 10000) as [k rng'].
  cbn [fst snd].
  destruct (CMAEvolutionStrategy sigma0 bs _ w (rng_of_seed k) _)
    as [err | o]; [intros H; discriminate H |].
  intros H. injection H as <-. simpl. split; [reflexivity |].
  exists o. now split.
Qed.

End Properties.

(** * Further properties of [ask], [tell] and [__init__] *)

Section Lifetime.

Context `{NP : Numpy} {AR : ArchiveBase} {OP : Optimizer} {EB : EmitterBase}.

(** ** ask *)


(** ** The emitter over its lifetime *)

Lemma reachable_built (e0 : ImprovementEmitter) (st : State) :
  reachable e0 st ->
  exists a x0 sigma0 sel res w bounds bs seed os,
    __init__ a x0 sigma0 sel res w bounds bs seed os = inr e0.
Proof.
  induction 1 as [a x0 sigma0 sel res w bounds bs seed os tr Hinit | | |];
    try assumption.
  now exists a, x0, sigma0, sel, res, w, bounds, bs, seed, os.
Qed.

(** X2.  The batch size is the one the optimizer reported when the emitter was
    built, and it, x0, sigma0, the rules and the emitter's generator stay as
    built after any sequence of [ask] and [tell] calls; the rules are among
    the accepted ones. *)
Theorem reachable_fixed (e0 : ImprovementEmitter) (st : State) :
  reachable e0 st ->
  batch_size e0 = opt_batch_size (opt e0) /\
  batch_size (emitter st) = batch_size e0 /\
  x0 (emitter st) = x0 e0 /\
  sigma0 (emitter st) = sigma0 e0 /\
  _rng (emitter st) = _rng e0 /\
  _selection_rule (emitter st) = _selection_rule e0 /\
  _restart_rule (emitter st) = _restart_rule e0 /\
  In (_selection_rule e0) ["mu"; "filter"] /\
  In (_restart_rule e0) ["basic"; "no_improvement"] /\
  (_num_parents (emitter st) = None <-> _selection_rule e0 = "filter").
Proof.
  intros Hr.
  destruct (reachable_built Hr)
    as (a & x & sg & sel & res & w & bounds & bs & seed & os & Hinit).
  destruct (init_valid _ _ _ _ _ _ _ _ _ _ Hinit) as (Hv & _ & _ & _ & Hb).
  pose proof (reachable_config Hr) as Hc. unfold same_config in Hc.
  destruct Hc as (Hrng & Hbs & Hx & Hs & _ & _ & _ & Hsel & Hres & Hnp).
  unfold batch_size, x0, sigma0.
  destruct Hv as [Hsn Hrr].
  repeat split; try assumption.
  - destruct Hsn as [[-> _] | [-> _]]; simpl; tauto.
  - destruct Hrr as [-> | ->]; simpl; tauto.
  - rewrite Hnp. destruct Hsn as [[E _] | [E E']]; [tauto |].
    rewrite E, E'. intros H; discriminate H.
  - rewrite Hnp. destruct Hsn as [[_ E] | [E _]]; [tauto |].
    rewrite E. intros H; discriminate H.
Qed.

Lemma tell_calls_app (evs1 evs2 : list Event) :
  tell_calls (evs1 ++ evs2) = tell_calls evs1 ++ tell_calls evs2.
Proof.
  induction evs1 as [| ev evs1 IH]; [reflexivity |].
  destruct ev; simpl; now rewrite ?IH.
Qed.

(** X3.  The restart counter starts at 0, never decreases, and never exceeds the
    number of [Optimizer.tell] calls made so far. *)
Theorem reachable_restarts (e0 : ImprovementEmitter) (st : State) :
  reachable e0 st ->
  0 <= _restarts (emitter st) <= Z.of_nat (length (tell_calls (trace st))).
Proof.
  induction 1 as [a x sg sel res w bounds bs seed os tr Hinit
                  | st g batch st' _ IH Hask
                  | st sols objs behs jac meta r st' _ IH Htell
                  | st a _ IH].
  - destruct (init_valid _ _ _ _ _ _ _ _ _ _ Hinit) as (_ & _ & _ & H0 & _).
    simpl. rewrite H0. lia.
  - unfold ask, bind, get_self, call_opt_ask in Hask. simpl in Hask.
    destruct (opt_ask _ _ _) as [b o]. injection Hask as _ <-.
    cbn [trace emitter log set_opt _restarts].
    rewrite tell_calls_app, length_app. simpl. lia.
  - destruct (tell_run st sols objs behs jac meta) as [ranked [_ Hrun]].
    cbv zeta in Hrun. rewrite Hrun in Htell. injection Htell as _ <-.
    cbn [trace emitter].
    rewrite !tell_calls_app, !length_app,
      (tell_calls_adds _ (add_all_is_add _ _)).
    cbn [tell_calls app length]. rewrite tell_calls_restart.
    destruct (_ || _); cbn -[Z.add Z.of_nat]; lia.
  - exact IH.
Qed.

End Lifetime.

Section Batch.

Context `{NP : Numpy} {AR : ArchiveBase} {OP : Optimizer}.

(** ** What [Optimizer.tell] receives *)

Lemma map_nth_error_seq {A : Type} (l : list A) (n : nat) :
  (n <= length l)%nat ->
  map (nth_error l) (seq 0 n) = map Some (firstn n l).
Proof.
  revert n. induction l as [| x l IH]; intros n Hn.
  - simpl in Hn. assert (n = 0%nat) by lia. now subst.
  - destruct n as [| n]; [reflexivity |].
    simpl in Hn. cbn [seq map firstn nth_error]. f_equal.
    rewrite <- seq_shift, map_map. cbn [nth_error].
    apply IH. lia.
Qed.

Lemma map_Some_inj {A : Type} (l1 l2 : list A) :
  map Some l1 = map Some l2 -> l1 = l2.
Proof.
  revert l2. induction l1 as [| x l1 IH]; intros [| y l2] H;
    try discriminate; [reflexivity |].
  simpl in H. injection H as -> H. f_equal. now apply IH.
Qed.

(** X4.  The solutions forwarded to [Optimizer.tell] are the inserted
    solutions, each exactly once: a rearrangement of the first n solutions,
    n being the number of items [zip] produced. *)
Theorem forwarded_is_rearrangement (st : State) (sols : list Sol)
  (objs : list Obj) (behs : list Beh) (jac : option Jac)
  (meta : option (list (option Meta))) :
  exists st' adds ranked np rest,
    tell sols objs behs jac meta st = inr (tt, st') /\
    trace st' = trace st ++ adds ++ EvOptTell ranked np :: rest /\
    forallb is_add adds = true /\
    tell_calls rest = [] /\
    Permutation ranked (firstn (length adds) sols) /\
    Permutation ranked (map (fun x => fst (fst (fst x))) (add_args adds)).
Proof.
  destruct (tell_run st sols objs behs jac meta) as [ranked [Hmap Htell]].
  cbv zeta in Htell.
  set (items := batch_items sols objs behs meta) in *.
  destruct (add_all_length (archive st) items) as [Hadds _].
  assert (Hle : (length items <= length sols)%nat).
  { unfold items, batch_items, enumerate. rewrite enumerate_from_length.
    apply zip4_length_le. }
  assert (Hperm : Permutation ranked (firstn (length items) sols)).
  { assert (Hp : Permutation (map Some ranked)
                   (map Some (firstn (length items) sols))).
    { rewrite Hmap, <- (map_nth_error_seq sols Hle).
      apply Permutation_map.
      rewrite <- (Permutation_map rr_index (sort_reverse_perm _)).
      rewrite add_all_index. unfold items, batch_items, enumerate.
      now rewrite enumerate_from_fst, enumerate_from_length. }
    apply Permutation_map_inv in Hp. destruct Hp as (l3 & Heq & Hp).
    apply map_Some_inj in Heq. subst l3. now symmetry. }
  eexists _, (batch_adds (archive st) items), ranked, _, _.
  split; [exact Htell |].
  split; [reflexivity |].
  split; [apply add_all_is_add |].
  split; [apply tell_calls_restart |].
  rewrite Hadds. split; [exact Hperm |].
  rewrite add_all_args. unfold items, batch_items, enumerate in *.
  rewrite enumerate_from_snd. rewrite enumerate_from_length in Hperm.
  now rewrite (proj1 (zip4_proj sols objs behs _)).
Qed.

(** ** Parents under the "filter" rule *)

Lemma count_added_records (a : Archive)
  (items : list (nat * (Sol * Obj * Beh * option Meta))) :
  count_added (batch_adds a items) =
  Z.of_nat (length (filter (fun d => status_added (rr_status d))
                           (batch_records a items))).
Proof.
  unfold batch_adds, batch_records. revert a.
  induction items as [| [i [[[sol obj] beh] meta]] rest IH]; intros a;
    [reflexivity |].
  cbn [add_all].
  specialize (IH (snd (archive_add a sol obj beh meta))).
  destruct (archive_add a sol obj beh meta) as [[[s v] eid] a'].
  cbn [snd] in IH.
  destruct (add_all a' rest) as [[evs recs] a''].
  cbn [fst snd] in *. cbn [count_added filter rr_status fst].
  destruct s; cbn -[Z.add Z.of_nat]; rewrite IH;
    try reflexivity; cbn [length]; lia.
Qed.

Lemma filter_length_perm {A : Type} (f : A -> bool) (l1 l2 : list A) :
  Permutation l1 l2 -> length (filter f l1) = length (filter f l2).
Proof.
  induction 1 as [| x l1 l2 _ IH | x y l | l1 l2 l3 _ IH1 _ IH2]; simpl.
  - reflexivity.
  - destruct (f x); simpl; now rewrite IH.
  - destruct (f x), (f y); reflexivity.
  - now rewrite IH1.
Qed.

(** In a ranking the added records come first. *)
Lemma ranking_added_first (l : list RankingRecord) :
  StronglySorted ranks_before l ->
  Forall (fun d => status_added (rr_status d) = true)
    (firstn (length (filter (fun d => status_added (rr_status d)) l)) l) /\
  Forall (fun d => rr_status d = NOT_ADDED)
    (skipn (length (filter (fun d => status_added (rr_status d)) l)) l).
Proof.
  induction 1 as [| a l Hs [IH1 IH2] Hall]; [now split |].
  cbn [filter].
  destruct (status_added (rr_status a)) eqn:Ea.
  - cbn [length firstn skipn]. split; [now constructor | exact IH2].
  - assert (Hna : rr_status a = NOT_ADDED)
      by (destruct (rr_status a); [reflexivity | discriminate | discriminate]).
    assert (Hl : Forall (fun d => rr_status d = NOT_ADDED) l).
    { eapply Forall_impl; [| exact Hall]. intros b Hb.
      unfold ranks_before in Hb. rewrite Hna in Hb.
      destruct (rr_status b); [reflexivity | contradiction | contradiction]. }
    assert (Hf : filter (fun d => status_added (rr_status d)) l = []).
    { clear - Hl. induction Hl as [| b l Hb _ IH]; [reflexivity |].
      simpl. now rewrite Hb, IH. }
    rewrite Hf. cbn [length firstn skipn].
    split; [constructor | now constructor].
Qed.

(** X5.  Under "filter" the parent count k cuts the forwarded batch in two: the
    first k ranked records are exactly the NEW and IMPROVE_EXISTING ones,
    the others are all NOT_ADDED. *)
Theorem filter_parents_are_added (st : State) (sols : list Sol)
  (objs : list Obj) (behs : list Beh) (jac : option Jac)
  (meta : option (list (option Meta))) :
  _selection_rule (emitter st) = "filter" ->
  exists st' adds ranked k rest,
    tell sols objs behs jac meta st = inr (tt, st') /\
    trace st' = trace st ++ adds ++ EvOptTell ranked (Some k) :: rest /\
    forallb is_add adds = true /\
    k = count_added adds /\
    map Some ranked =
      map (nth_error sols) (map rr_index (sort_reverse (records_of adds))) /\
    Forall (fun d => rr_status d = NEW \/ rr_status d = IMPROVE_EXISTING)
      (firstn (Z.to_nat k) (sort_reverse (records_of adds))) /\
    Forall (fun d => rr_status d = NOT_ADDED)
      (skipn (Z.to_nat k) (sort_reverse (records_of adds))).
Proof.
  intros Hsel.
  destruct (tell_run st sols objs behs jac meta) as [ranked [Hmap Htell]].
  cbv zeta in Htell. rewrite Hsel, String.eqb_refl in Htell.
  set (items := batch_items sols objs behs meta) in *.
  assert (Hk : Z.to_nat (count_added (batch_adds (archive st) items)) =
               length (filter (fun d => status_added (rr_status d))
                         (sort_reverse (batch_records (archive st) items)))).
  { rewrite count_added_records, Nat2Z.id.
    apply filter_length_perm, sort_reverse_perm. }
  destruct (ranking_added_first
              (sort_reverse_sorted (batch_records_NoDup (archive st) sols objs behs meta)))
    as [H1 H2].
  fold items in H1, H2. rewrite <- Hk in H1, H2.
  eexists _, (batch_adds (archive st) items), ranked, _, _.
  split; [exact Htell |].
  split; [reflexivity |].
  split; [apply add_all_is_add |].
  split; [reflexivity |].
  assert (Hrec : records_of (batch_adds (archive st) items) =
                 batch_records (archive st) items)
    by apply records_of_batch.
  rewrite Hrec.
  split; [exact Hmap |].
  split; [| exact H2].
  eapply Forall_impl; [| exact H1]. intros d Hd. cbv beta in Hd.
  destruct (rr_status d); [discriminate Hd | now right | now left].
Qed.

(** ** Edge cases *)


(** ** The default rules together *)

(** X7.  Under "filter" with "no_improvement", a call that gives
    [Optimizer.tell] zero parents always resets the optimizer afterwards,
    and when [check_stop] answers false the optimizer is reset in exactly
    those calls. *)
Theorem zero_parents_restart (st : State) (sols : list Sol) (objs : list Obj)
  (behs : list Beh) (jac : option Jac) (meta : option (list (option Meta))) :
  _selection_rule (emitter st) = "filter" ->
  _restart_rule (emitter st) = "no_improvement" ->
  exists st' adds ranked k values stop fires elite,
    tell sols objs behs jac meta st = inr (tt, st') /\
    trace st' = trace st ++ adds
                ++ [EvOptTell ranked (Some k); EvCheckStop values stop]
                ++ restart_events fires elite /\
    forallb is_add adds = true /\
    0 <= k <= Z.of_nat (length adds) /\
    (k = 0 -> fires = true) /\
    (stop = false -> (fires = true <-> k = 0)) /\
    _restarts (emitter st') = _restarts (emitter st) + (if fires then 1 else 0).
Proof.
  intros Hsel Hres.
  destruct (tell_run st sols objs behs jac meta) as [ranked [_ Htell]].
  cbv zeta in Htell. rewrite Hsel, String.eqb_refl in Htell.
  unfold _check_restart in Htell. rewrite Hres, String.eqb_refl in Htell.
  set (items := batch_items sols objs behs meta) in *.
  set (adds := batch_adds (archive st) items) in *.
  eexists _, adds, ranked, _, _, _, _, _.
  split; [exact Htell |].
  split; [reflexivity |].
  split; [apply add_all_is_add |].
  split; [apply count_added_bounds |].
  destruct (Z.eqb_spec (count_added adds) 0) as [Hz | Hz].
  - rewrite orb_true_r. cbn -[Z.add]. repeat split; auto.
  - rewrite orb_false_r.
    destruct (opt_check_stop _ _); cbn -[Z.add]; repeat split;
      intros; try congruence; try lia.
Qed.

(** ** Restart on the optimizer's own signal *)

(** X8.  Whatever the restart rule and the outcomes of the batch, a call in
    which [Optimizer.check_stop] answers true resets the optimizer to an
    elite drawn after the insertions of the batch, and counts one restart. *)
Theorem check_stop_true_restarts (st : State) (sols : list Sol)
  (objs : list Obj) (behs : list Beh) (jac : option Jac)
  (meta : option (list (option Meta))) :
  exists st' adds ranked np values stop post,
    tell sols objs behs jac meta st = inr (tt, st') /\
    trace st' = trace st ++ adds
                ++ [EvOptTell ranked np; EvCheckStop values stop] ++ post /\
    forallb is_add adds = true /\
    (stop = true ->
     post = [EvGetRandomElite
               (fst (fst (archive_get_random_elite
                            (replay_archive (archive st) adds))));
             EvOptReset
               (fst (fst (archive_get_random_elite
                            (replay_archive (archive st) adds))))] /\
     archive st' =
       snd (archive_get_random_elite (replay_archive (archive st) adds)) /\
     _restarts (emitter st') = _restarts (emitter st) + 1).
Proof.
  destruct (tell_run st sols objs behs jac meta) as [ranked [_ Htell]].
  cbv zeta in Htell.
  set (items := batch_items sols objs behs meta) in *.
  eexists _, (batch_adds (archive st) items), ranked, _, _, _, _.
  split; [exact Htell |].
  split; [reflexivity |].
  split; [apply add_all_is_add |].
  intros Hstop. rewrite Hstop, replay_archive_adds.
  cbn -[Z.add]. repeat split.
Qed.

(** ** Ties *)

Lemma descending_indices_ranked (s : AddStatus) (v : Z) (l : list nat) :
  StronglySorted (fun i j => (j < i)%nat) l ->
  StronglySorted ranks_before (map (fun i => (s, v, i)) l).
Proof.
  induction 1 as [| i l Hs IH Hall]; simpl; constructor; [exact IH |].
  rewrite Forall_map. eapply Forall_impl; [| exact Hall].
  intros j Hj. unfold ranks_before, rr_status, rr_value, rr_index. simpl.
  destruct s; right; split; try reflexivity; exact Hj.
Qed.

Lemma seq_ascending (k n : nat) :
  StronglySorted (fun i j => (i < j)%nat) (seq k n).
Proof.
  revert k. induction n as [| n IH]; intros k; simpl; constructor;
    [apply IH |].
  apply Forall_forall. intros j Hj. apply in_seq in Hj. lia.
Qed.

Lemma enumerate_constant (s : AddStatus) (v : Z) (k : nat)
  (l : list (AddStatus * Z)) :
  Forall (fun r => r = (s, v)) l ->
  map (fun p => (fst (snd p), snd (snd p), fst p)) (enumerate_from k l) =
  map (fun i => (s, v, i)) (seq k (length l)).
Proof.
  intros H. revert k. induction H as [| r l Hr _ IH]; intros k;
    [reflexivity |].
  subst r. simpl. now rewrite IH.
Qed.

(** X9.  When every insertion of a call returns the same status and the same
    improvement value, the solutions reach [Optimizer.tell] in reverse
    batch order: ties go to the later index. *)
Theorem ties_forwarded_reversed (st : State) (sols : list Sol)
  (objs : list Obj) (behs : list Beh) (jac : option Jac)
  (meta : option (list (option Meta))) :
  exists st' adds ranked np rest,
    tell sols objs behs jac meta st = inr (tt, st') /\
    trace st' = trace st ++ adds ++ EvOptTell ranked np :: rest /\
    forallb is_add adds = true /\
    tell_calls rest = [] /\
    (forall s v,
       Forall (fun r => r = (s, v)) (add_results adds) ->
       ranked = rev (firstn (length adds) sols)).
Proof.
  destruct (tell_run st sols objs behs jac meta) as [ranked [Hmap Htell]].
  cbv zeta in Htell.
  set (items := batch_items sols objs behs meta) in *.
  destruct (add_all_length (archive st) items) as [Hadds Hrecs].
  assert (Hle : (length items <= length sols)%nat).
  { unfold items, batch_items, enumerate. rewrite enumerate_from_length.
    apply zip4_length_le. }
  eexists _, (batch_adds (archive st) items), ranked, _, _.
  split; [exact Htell |].
  split; [reflexivity |].
  split; [apply add_all_is_add |].
  split; [apply tell_calls_restart |].
  intros s v Hall.
  assert (Hrec : batch_records (archive st) items =
                 map (fun i => (s, v, i)) (seq 0 (length items))).
  { unfold items. rewrite <- records_of_batch. fold items.
    unfold records_of, enumerate. rewrite (enumerate_constant 0 Hall).
    f_equal. f_equal.
    rewrite <- Hrecs. unfold items. rewrite <- records_of_batch. fold items.
    unfold records_of, enumerate.
    now rewrite length_map, enumerate_from_length. }
  assert (Hsort : sort_reverse (batch_records (archive st) items) =
                  rev (batch_records (archive st) items)).
  { apply ranking_unique.
    - rewrite <- sort_reverse_perm. apply Permutation_rev.
    - apply sort_reverse_sorted. unfold items. apply batch_records_NoDup.
    - rewrite Hrec, <- map_rev. apply descending_indices_ranked.
      apply (StronglySorted_rev (seq_ascending 0 (length items))). }
  rewrite Hsort, Hrec in Hmap.
  rewrite <- map_rev, !map_map in Hmap. cbn [rr_index snd] in Hmap.
  change (fun x : nat => nth_error sols x) with (nth_error sols) in Hmap.
  rewrite map_rev, (map_nth_error_seq sols Hle), <- map_rev in Hmap.
  apply map_Some_inj in Hmap. now rewrite Hadds.
Qed.

End Batch.

(** * Concrete runs *)

Section Runs.

Import Demo.

Example built_filter_basic :
  emitter_of "filter" "basic" = inr (built "filter" "basic").
Proof. reflexivity. Qed.

Example built_mu_basic :
  emitter_of "mu" "basic" = inr (built "mu" "basic").
Proof. reflexivity. Qed.

(** The scenario of the specification: every solution of the batch is
    refused by the archive, the "no_improvement" rule restarts the optimizer
    and the counter becomes 1. *)
Example scenario_no_improvement :
  exists st',
    tell batch4 objs4 behs4 None None
         (fresh "filter" "no_improvement" full_archive) = inr (tt, st') /\
    map fst (add_results (trace st')) =
      [NOT_ADDED; NOT_ADDED; NOT_ADDED; NOT_ADDED] /\
    tell_calls (trace st') = [([[10; 10]; [9; 9]; [8; 8]; [7; 7]], Some 0)] /\
    count_resets (trace st') = 1 /\
    _restarts (emitter st') = 1.
Proof. run_tell. Qed.

(** The same batch under "basic": no restart. *)
Example scenario_basic :
  exists st',
    tell batch4 objs4 behs4 None None
         (fresh "filter" "basic" full_archive) = inr (tt, st') /\
    count_resets (trace st') = 0 /\
    _restarts (emitter st') = 0.
Proof. run_tell. Qed.

(** Lists of different lengths: two insertions, no error. *)
Example scenario_short_objectives :
  exists st',
    tell batch4 [1; 2] behs4 None None
         (fresh "filter" "basic" empty_archive) = inr (tt, st') /\
    add_args (trace st') = [([7; 7], 1, 0, None); ([8; 8], 2, 1, None)] /\
    tell_calls (trace st') = [([[8; 8]; [7; 7]], Some 2)].
Proof. run_tell. Qed.


(** C2, on an emitter built with the "mu" rule. *)
Lemma tell_num_parents_witness :
  reachable (built "mu" "basic") (fresh "mu" "basic" empty_archive) /\
  exists st' adds ranked np rest,
    tell batch4 objs4 behs4 None None (fresh "mu" "basic" empty_archive) =
      inr (tt, st') /\
    trace st' = [] ++ adds ++ EvOptTell ranked np :: rest /\
    forallb is_add adds = true /\
    tell_calls rest = [] /\
    ((_selection_rule (built "mu" "basic") = "filter" /\
      np = Some (count_added adds)) \/
     (_selection_rule (built "mu" "basic") = "mu" /\
      np = Some (batch_size (built "mu" "basic") / 2) /\
      _num_parents (built "mu" "basic") = np /\
      batch_size (emitter (fresh "mu" "basic" empty_archive)) =
        batch_size (built "mu" "basic"))).
Proof.
  assert (Hr : reachable (built "mu" "basic") (fresh "mu" "basic" empty_archive)).
  { unfold fresh.
    apply (@reach_init numpy grid es base (built "mu" "basic")
             empty_archive [0; 0] 1
             "mu" "basic" "truncation" tt (Some 4) (Some 7) (0, 0) []).
    reflexivity. }
  split; [exact Hr |].
  exact (@tell_num_parents numpy grid es base (built "mu" "basic")
           (fresh "mu" "basic" empty_archive) batch4 objs4 behs4 None None Hr).
Defined.

(** C10, on an emitter built with the "filter" rule. *)
Lemma tell_num_parents_bounds_witness :
  exists st' adds ranked k rest,
    tell batch4 objs4 behs4 None None (fresh "filter" "basic" empty_archive) =
      inr (tt, st') /\
    trace st' = [] ++ adds ++ EvOptTell ranked (Some k) :: rest /\
    forallb is_add adds = true /\
    Z.of_nat (length adds) = 4 /\
    0 <= k <= 4 /\
    ((_selection_rule (built "filter" "basic") = "filter" /\
      k = count_added adds) \/
     (_selection_rule (built "filter" "basic") = "mu" /\ k = 4 / 2)).
Proof.
  assert (Hr : reachable (built "filter" "basic")
                 (fresh "filter" "basic" empty_archive)).
  { unfold fresh.
    apply (@reach_init numpy grid es base (built "filter" "basic")
             empty_archive [0; 0] 1
             "filter" "basic" "truncation" tt (Some 4) (Some 7) (0, 0) []).
    reflexivity. }
  apply (@tell_num_parents_bounds numpy grid es base (built "filter" "basic")
           (fresh "filter" "basic" empty_archive)
           batch4 objs4 behs4 None None Hr);
    try reflexivity.
  intros m H. discriminate H.
Defined.

(** C8, on a batch of four. *)
Lemma tell_metadata_omitted_witness :
  tell batch4 objs4 behs4 None None (fresh "filter" "basic" empty_archive) =
    tell batch4 objs4 behs4 None (Some [None; None; None; None])
         (fresh "filter" "basic" empty_archive) /\
  exists st' adds ranked np rest,
    tell batch4 objs4 behs4 None None (fresh "filter" "basic" empty_archive) =
      inr (tt, st') /\
    trace st' = [] ++ adds ++ EvOptTell ranked np :: rest /\
    forallb is_add adds = true /\
    add_args rest = [] /\
    Z.of_nat (length adds) = 4 /\
    map (fun x => fst (fst (fst x))) (add_args adds) = batch4 /\
    Forall (fun x => snd x = None) (add_args adds).
Proof.
  apply (@tell_metadata_omitted numpy grid es
           (fresh "filter" "basic" empty_archive) batch4 objs4 behs4 None);
    reflexivity.
Defined.

(** C4 does not hold as stated: the improvement values were recorded as
    1, 2, 3, 4 in batch order and [Optimizer.check_stop] receives
    4, 3, 2, 1. *)
Lemma check_stop_values_not_in_batch_order :
  exists st',
    tell batch4 objs4 behs4 None None (fresh "filter" "basic" empty_archive) =
      inr (tt, st') /\
    map snd (add_results (trace st')) = [1; 2; 3; 4] /\
    check_stop_calls (trace st') = [[4; 3; 2; 1]] /\
    check_stop_calls (trace st') <> [map snd (add_results (trace st'))].
Proof. run_tell. discriminate. Qed.

(** C5 does not hold as stated: two emitters built with the same seed,
    [None], and the same configuration give different first batches when
    the operating system's entropy differs. *)
Lemma unseeded_experiments_differ :
  exists b1 b2 st1 st2,
    experiment empty_archive [0; 0] 1 "filter" "basic" "truncation" tt
               (Some 2) None (1, 1) 1 evaluate = inr ([b1], st1) /\
    experiment empty_archive [0; 0] 1 "filter" "basic" "truncation" tt
               (Some 2) None (2, 2) 1 evaluate = inr ([b2], st2) /\
    b1 = [[1; 1]; [2; 2]] /\ b2 = [[2; 2]; [3; 3]] /\ b1 <> b2.
Proof.
  do 4 eexists. split; [vm_compute; reflexivity |].
  split; [vm_compute; reflexivity |].
  repeat split. discriminate.
Qed.

(** C9 does not hold as stated: [tell] never changes the emitter's own
    generator, not even in a call that restarts the optimizer from a random
    elite (the draw is made by the archive). *)
Lemma tell_keeps_emitter_rng :
  (exists st',
     tell batch4 objs4 behs4 None None
          (fresh "filter" "no_improvement" full_archive) =
       inr (tt, st') /\
     count_resets (trace st') = 1 /\
     _rng (emitter st') =
       _rng (emitter (fresh "filter" "no_improvement" full_archive))) /\
  ~ (exists (NP : Numpy) (AR : ArchiveBase) (OP : Optimizer)
            (st st' : State) (sols : list Sol) (objs : list Obj)
            (behs : list Beh) (jac : option Jac)
            (meta : option (list (option Meta))) (r : unit),
        tell sols objs behs jac meta st = inr (r, st') /\
        _rng (emitter st') <> _rng (emitter st)).
Proof.
  split.
  - eexists. split; [vm_compute; reflexivity | vm_compute; repeat split].
  - intros (NP & AR & OP & st & st' & sols & objs & behs & jac & meta & r
            & Htell & Hrng).
    apply Hrng. apply tell_config in Htell. apply Htell.
Qed.

(** ** Runs for the further properties *)

Lemma fresh_reachable (sel res : string) (a : GridArchive) :
  emitter_of sel res = inr (built sel res) ->
  reachable (built sel res) (fresh sel res a).
Proof.
  intros H. unfold fresh.
  pose proof (@reach_init numpy grid es base (built sel res)
                empty_archive [0; 0] 1 sel res "truncation" tt
                (Some 4) (Some 7) (0, 0) [] H) as Hr.
  exact (reach_archive a Hr).
Defined.

(** The emitter after one refused batch under "mu": built values kept. *)
Lemma reachable_fixed_witness :
  exists st',
    tell batch4 objs4 behs4 None None (fresh "mu" "basic" full_archive) =
      inr (tt, st') /\
    batch_size (built "mu" "basic") = opt_batch_size (opt (built "mu" "basic")) /\
    batch_size (emitter st') = batch_size (built "mu" "basic") /\
    x0 (emitter st') = x0 (built "mu" "basic") /\
    sigma0 (emitter st') = sigma0 (built "mu" "basic") /\
    _rng (emitter st') = _rng (built "mu" "basic") /\
    _selection_rule (emitter st') = _selection_rule (built "mu" "basic") /\
    _restart_rule (emitter st') = _restart_rule (built "mu" "basic") /\
    In (_selection_rule (built "mu" "basic")) ["mu"; "filter"] /\
    In (_restart_rule (built "mu" "basic")) ["basic"; "no_improvement"] /\
    (_num_parents (emitter st') = None <->
     _selection_rule (built "mu" "basic") = "filter").
Proof.
  eexists. split; [vm_compute; reflexivity |].
  apply (@reachable_fixed numpy grid es base (built "mu" "basic")).
  eapply (@reach_tell numpy grid es base _
            (fresh "mu" "basic" full_archive) batch4 objs4 behs4 None None tt);
    [exact (fresh_reachable full_archive built_mu_basic)
    | vm_compute; reflexivity].
Defined.

(** The emitter after one refused batch under "no_improvement": one
    restart, one [Optimizer.tell] call. *)
Lemma reachable_restarts_witness :
  exists st',
    tell batch4 objs4 behs4 None None
         (fresh "filter" "no_improvement" full_archive) = inr (tt, st') /\
    _restarts (emitter st') = 1 /\
    0 <= _restarts (emitter st')
      <= Z.of_nat (length (tell_calls (trace st'))).
Proof.
  eexists. split; [vm_compute; reflexivity |].
  split; [reflexivity |].
  apply (@reachable_restarts numpy grid es base
           (built "filter" "no_improvement")).
  eapply (@reach_tell numpy grid es base _
            (fresh "filter" "no_improvement" full_archive)
            batch4 objs4 behs4 None None tt);
    [apply fresh_reachable; reflexivity
    | vm_compute; reflexivity].
Defined.

(** A batch with two added solutions and two refused ones. *)
Lemma filter_parents_are_added_witness :
  _selection_rule (emitter (fresh "filter" "basic" full_archive)) = "filter" /\
  exists st' adds ranked k rest,
    tell batch4 [1; 20; 3; 40] behs4 None None
         (fresh "filter" "basic" full_archive) = inr (tt, st') /\
    trace st' = [] ++ adds ++ EvOptTell ranked (Some k) :: rest /\
    forallb is_add adds = true /\
    k = count_added adds /\
    map Some ranked =
      map (nth_error batch4) (map rr_index (sort_reverse (records_of adds))) /\
    Forall (fun d => rr_status d = NEW \/ rr_status d = IMPROVE_EXISTING)
      (firstn (Z.to_nat k) (sort_reverse (records_of adds))) /\
    Forall (fun d => rr_status d = NOT_ADDED)
      (skipn (Z.to_nat k) (sort_reverse (records_of adds))).
Proof.
  split; [reflexivity |].
  apply (@filter_parents_are_added numpy grid es
           (fresh "filter" "basic" full_archive)
           batch4 [1; 20; 3; 40] behs4 None None).
  reflexivity.
Defined.


(** The refused batch under the default rules. *)
Lemma zero_parents_restart_witness :
  exists st' adds ranked k values stop fires elite,
    tell batch4 objs4 behs4 None None
         (fresh "filter" "no_improvement" full_archive) = inr (tt, st') /\
    trace st' = [] ++ adds
                ++ [EvOptTell ranked (Some k); EvCheckStop values stop]
                ++ restart_events fires elite /\
    forallb is_add adds = true /\
    0 <= k <= Z.of_nat (length adds) /\
    (k = 0 -> fires = true) /\
    (stop = false -> (fires = true <-> k = 0)) /\
    _restarts (emitter st') = 0 + (if fires then 1 else 0).
Proof.
  apply (@zero_parents_restart numpy grid es
           (fresh "filter" "no_improvement" full_archive)
           batch4 objs4 behs4 None None);
    reflexivity.
Defined.

(** Four solutions that tie: all refused with the same improvement value. *)
Example ties_reversed_run :
  exists st',
    tell batch4 [10; 10; 10; 10] behs4 None None
         (fresh "filter" "basic" full_archive) = inr (tt, st') /\
    add_results (trace st') =
      [(NOT_ADDED, 0); (NOT_ADDED, 0); (NOT_ADDED, 0); (NOT_ADDED, 0)] /\
    tell_calls (trace st') = [(rev batch4, Some 0)].
Proof. run_tell. Qed.

End Runs.

(** * The emitter with float values and raising collaborators *)

Section PyRanking.

Lemma py_insort_perm (x : Py.RankingRecord) (l : list Py.RankingRecord) :
  Permutation (x :: l) (Py.insort x l).
Proof.
  induction l as [| y l IH]; simpl; [reflexivity |].
  destruct (Py.tuple_ltb x y); [reflexivity |].
  rewrite perm_swap. now constructor.
Qed.

Lemma py_fold_insort_perm (l acc : list Py.RankingRecord) :
  Permutation (acc ++ l) (fold_left (fun a x => Py.insort x a) l acc).
Proof.
  revert acc. induction l as [| x l IH]; intros acc; simpl.
  - now rewrite app_nil_r.
  - rewrite <- IH, <- py_insort_perm. simpl.
    symmetry. apply Permutation_middle.
Qed.

(** Whatever the comparisons answer, the sort rearranges. *)
Lemma py_sort_reverse_perm (l : list Py.RankingRecord) :
  Permutation l (Py.sort_reverse l).
Proof.
  unfold Py.sort_reverse, Py.list_sort.
  rewrite <- Permutation_rev, <- (py_fold_insort_perm (rev l) []).
  apply Permutation_rev.
Qed.

(** On records whose values are numbers the two sorts agree. *)
Lemma py_insort_number (x : RankingRecord) (l : list RankingRecord) :
  Py.insort (Py.of_number x) (map Py.of_number l) =
  map Py.of_number (insort x l).
Proof.
  induction l as [| y l IH]; simpl; [reflexivity |].
  change (Py.tuple_ltb (Py.of_number x) (Py.of_number y))
    with (tuple_ltb x y).
  destruct (tuple_ltb x y); simpl; [reflexivity | now rewrite IH].
Qed.

Lemma py_fold_insort_number (l acc : list RankingRecord) :
  fold_left (fun a x => Py.insort x a) (map Py.of_number l)
            (map Py.of_number acc) =
  map Py.of_number (fold_left (fun a x => insort x a) l acc).
Proof.
  revert acc. induction l as [| x l IH]; intros acc; simpl; [reflexivity |].
  now rewrite py_insort_number, IH.
Qed.

Lemma py_sort_reverse_number (l : list RankingRecord) :
  Py.sort_reverse (map Py.of_number l) = map Py.of_number (sort_reverse l).
Proof.
  unfold Py.sort_reverse, Py.list_sort, sort_reverse, list_sort.
  pose proof (py_fold_insort_number (rev l) []) as H.
  change (map Py.of_number []) with (@nil Py.RankingRecord) in H.
  rewrite <- map_rev. apply (f_equal (@rev _)) in H.
  etransitivity; [exact H |]. symmetry. apply map_rev.
Qed.

Lemma py_ranks_before_number (a b : RankingRecord) :
  Py.ranks_before (Py.of_number a) (Py.of_number b) <-> ranks_before a b.
Proof.
  destruct a as [[sa va] ia], b as [[sb vb] ib].
  unfold Py.ranks_before, ranks_before, Py.of_number, Py.rr_status,
    Py.rr_value, Py.rr_index, rr_status, rr_value, rr_index; simpl.
  destruct sa, sb; simpl; rewrite ?Z.ltb_lt, ?Z.eqb_eq; tauto.
Qed.

Lemma py_sorted_number (l : list RankingRecord) :
  StronglySorted Py.ranks_before (map Py.of_number l) <->
  StronglySorted ranks_before l.
Proof.
  induction l as [| a l IH]; simpl.
  - split; constructor.
  - split; intros H; inversion H as [| ? ? Hs Hall]; subst; constructor.
    + now apply IH.
    + rewrite Forall_map in Hall. eapply Forall_impl; [| exact Hall].
      intros b. apply py_ranks_before_number.
    + now apply IH.
    + rewrite Forall_map. eapply Forall_impl; [| exact Hall].
      intros b. apply py_ranks_before_number.
Qed.

(** Records without NaN are records with numbers. *)
Lemma py_numbers (l : list Py.RankingRecord) :
  Forall (fun d => exists x, Py.rr_value d = Py.Fnum x) l ->
  exists l0, l = map Py.of_number l0.
Proof.
  induction 1 as [| d l [x Hx] _ [l0 IH]].
  - now exists [].
  - destruct d as [[s v] i]. unfold Py.rr_value in Hx. simpl in Hx. subst v l.
    now exists ((s, x, i) :: l0).
Qed.

Lemma py_of_number_inj (a b : RankingRecord) :
  Py.of_number a = Py.of_number b -> a = b.
Proof.
  destruct a as [[sa va] ia], b as [[sb vb] ib].
  unfold Py.of_number; simpl. intros H. now injection H as -> -> ->.
Qed.

(** Without NaN and without repeated records, the reversed sort gives the
    one arrangement in the order of the specification. *)
Lemma py_sort_reverse_ranking (l : list Py.RankingRecord) :
  Forall (fun d => exists x, Py.rr_value d = Py.Fnum x) l ->
  NoDup l ->
  StronglySorted Py.ranks_before (Py.sort_reverse l) /\
  (forall l', Permutation l l' -> StronglySorted Py.ranks_before l' ->
              l' = Py.sort_reverse l).
Proof.
  intros Hnum Hnd. destruct (py_numbers Hnum) as [l0 ->].
  assert (Hnd0 : NoDup l0).
  { clear Hnum. induction l0 as [| a l0 IH]; [constructor |].
    simpl in Hnd. inversion Hnd as [| ? ? Hnotin Hnd']; subst.
    constructor; [| now apply IH].
    intros Hin. apply Hnotin. now apply in_map. }
  rewrite py_sort_reverse_number. split.
  - apply py_sorted_number. now apply sort_reverse_sorted.
  - intros l' Hp Hs.
    symmetry in Hp.
    apply Permutation_map_inv in Hp. destruct Hp as (l1 & -> & Hp).
    f_equal. apply ranking_unique.
    + transitivity l0; [symmetry; exact Hp | apply sort_reverse_perm].
    + now apply py_sorted_number.
    + now apply sort_reverse_sorted.
Qed.

End PyRanking.

Section PyProperties.

Import Py.

Context `{NP : Numpy} {AR : ArchiveBase} {OP : Optimizer}.

Lemma py_add_all_facts (a : Archive)
  (items : list (nat * (Sol * Obj * Beh * option Meta))) :
  forallb is_add (fst (add_all a items)) = true /\
  add_args (fst (add_all a items)) =
    firstn (length (fst (add_all a items))) (map snd items) /\
  (length (fst (add_all a items)) <= length items)%nat /\
  (first_raised (fst (add_all a items)) = None ->
   length (fst (add_all a items)) = length items /\
   Forall add_returned (add_results (fst (add_all a items)))).
Proof.
  revert a. induction items as [| [i [[[sol obj] beh] meta]] rest IH];
    intros a; simpl.
  - repeat split; auto.
  - destruct (archive_add a sol obj beh meta) as [[e | x] a']; simpl.
    + split; [reflexivity |]. split; [reflexivity |]. split; [lia |].
      intros H. discriminate H.
    + specialize (IH a'). destruct (add_all a' rest) as [evs a''].
      simpl in *. destruct IH as (H1 & H2 & H3 & H4).
      split; [exact H1 |].
      split; [now rewrite H2 at 1 |].
      split; [lia |].
      intros Hn. destruct (H4 Hn) as [H5 H6].
      split; [lia |].
      constructor; [| exact H6].
      destruct x as [[s v] eid]. now exists s, v.
Qed.

Lemma py_tell_loop_run (xs : list (Sol * Obj * Beh * option Meta))
  (k : nat) (acc : list RankingRecord) (ns : Z) (st : State) :
  tell_loop (enumerate_from k xs) acc ns st =
  (match first_raised (fst (add_all (archive st) (enumerate_from k xs))) with
   | Some e => inl e
   | None =>
       inr (acc ++ records_from k
                     (add_results (fst (add_all (archive st) (enumerate_from k xs)))),
            ns + Z.of_nat
                   (length
                      (filter (fun d => status_added (rr_status d))
                         (records_from k
                            (add_results
                               (fst (add_all (archive st) (enumerate_from k xs))))))))
   end,
   {| emitter := emitter st;
      archive := snd (add_all (archive st) (enumerate_from k xs));
      trace := trace st ++ fst (add_all (archive st) (enumerate_from k xs)) |}).
Proof.
  revert k acc ns st.
  induction xs as [| [[[sol obj] beh] meta] xs IH]; intros k acc ns st.
  - simpl. unfold ret. rewrite !app_nil_r, Z.add_0_r. now destruct st.
  - cbn [enumerate_from tell_loop add_all].
    unfold bind at 1. unfold call_archive_add.
    destruct (archive_add (archive st) sol obj beh meta) as [[e | [[s v] eid]] a'];
      cbn [fst snd first_raised raised rmap].
    + reflexivity.
    + rewrite IH. cbn [archive emitter trace log].
      destruct (add_all a' (enumerate_from (S k) xs)) as [evs a''].
      cbn [fst snd first_raised raised add_results records_from].
      rewrite <- !app_assoc. cbn [app].
      destruct (first_raised evs); [reflexivity |].
      cbn [filter rr_status fst].
      destruct (status_added s); cbn [length];
        [rewrite Nat2Z.inj_succ, <- Z.add_1_l, Z.add_assoc |]; reflexivity.
Qed.

Lemma py_first_raised_app (l1 l2 : list Event) :
  first_raised (l1 ++ l2) =
  match first_raised l1 with
  | Some e => Some e
  | None => first_raised l2
  end.
Proof.
  induction l1 as [| ev l1 IH]; [reflexivity |].
  simpl. destruct (raised ev); [reflexivity | exact IH].
Qed.

Lemma py_add_results_adds (evs : list Event) :
  forallb is_add evs = true -> length (add_results evs) = length evs.
Proof.
  induction evs as [| ev evs IH]; [reflexivity |].
  destruct ev; simpl; intros H; try discriminate. now rewrite IH.
Qed.

Lemma py_records_from_index (k : nat) (rs : list (result (AddStatus * pyfloat))) :
  Forall (fun d => (k <= rr_index d < k + length rs)%nat) (records_from k rs).
Proof.
  revert k. induction rs as [| [e | [s v]] rs IH]; intros k; simpl.
  - constructor.
  - eapply Forall_impl; [| apply IH]. simpl. intros d. lia.
  - constructor; [unfold rr_index; simpl; lia |].
    eapply Forall_impl; [| apply IH]. simpl. intros d. lia.
Qed.

Lemma py_records_from_returned (k : nat) (rs : list (result (AddStatus * pyfloat))) :
  Forall add_returned rs -> length (records_from k rs) = length rs.
Proof.
  intros H. revert k. induction H as [| r rs [s [v ->]] _ IH]; intros k;
    simpl; [reflexivity |]. now rewrite IH.
Qed.

Lemma py_records_from_NoDup (k : nat) (rs : list (result (AddStatus * pyfloat))) :
  NoDup (records_from k rs).
Proof.
  revert k. induction rs as [| [e | [s v]] rs IH]; intros k; simpl.
  - constructor.
  - apply IH.
  - constructor; [| apply IH].
    intros Hin.
    pose proof (py_records_from_index (S k) rs) as Hall.
    rewrite Forall_forall in Hall. specialize (Hall _ Hin).
    unfold rr_index in Hall. simpl in Hall. lia.
Qed.

(** The iterator [tell] hands to [zip]. *)
Lemma py_ranking_in_range (st : State) (sols : list Sol) (objs : list Obj)
  (behs : list Beh) (it : iterable (option Meta)) :
  Forall (fun i => (i < length sols)%nat)
    (map rr_index
       (sort_reverse
          (records_of (fst (add_all (archive st)
                              (enumerate (zip4 sols objs behs it))))))).
Proof.
  set (items := enumerate (zip4 sols objs behs it)).
  destruct (py_add_all_facts (archive st) items) as (Hadd & _ & Hle & _).
  eapply Permutation_Forall.
  - apply Permutation_map. apply py_sort_reverse_perm.
  - rewrite Forall_map. unfold records_of.
    eapply Forall_impl; [| apply py_records_from_index].
    intros d Hd. simpl in Hd.
    rewrite (py_add_results_adds _ Hadd) in Hd.
    assert (Hitems : length items = length (zip4 sols objs behs it))
      by apply enumerate_from_length.
    pose proof (zip4_length_le sols objs behs it). lia.
Qed.

End PyProperties.
